(** * Financial transactions pipeline: ingestion, store and paginated query

    A shallow embedding of [src/models.py], [src/data_processor.py],
    [src/db.py], [src/api.py] and the ingestion core of [src/main.py],
    followed by the properties of the pipeline.

    Conventions of the embedding.
    - A Python [str] is a [string], read as its sequence of bytes; DuckDB
      compares VARCHAR values bytewise, which is [String.compare].
    - A DataFrame is the list of its rows.  Every frame has the twelve
      columns of the [transactions] table ([columns] below), each nullable:
      a [Row] holds [option] values, [None] being null.
    - The DOUBLE column [amount] is a rational; only its sign is inspected.
    - A Python exception is a value of [exn]; a call that may raise returns a
      [result].
    - Of DuckDB the embedding uses: the PRIMARY KEY of the table (ids not
      null and pairwise distinct, an append that violates it inserts
      nothing), ORDER BY and the comparisons >=, <=, > on VARCHAR as
      bytewise order, and that any call may fail.
    - Of pydantic: a [str] field accepts any non-null string, an enum field
      the exact value of a member, [gt=0] a positive number; a validator
      declared with [pre=True] runs before these checks, one without it
      after them. *)

From Stdlib Require Import ZArith QArith String Ascii List Lia.
From stdpp Require Import base decidable option list sets gmap strings sorting pretty.

Local Open Scope string_scope.
Local Open Scope Z_scope.
Local Open Scope list_scope.

(* ===================================================================== *)
(** * Python values, exceptions and string primitives *)
(* ===================================================================== *)

Module Py.

(** The exceptions that occur in the modelled code. *)
Inductive exn : Type :=
| ValueError (msg : string)
| IndexError
| AttributeError
| ValidationError (fields : list string)
| EngineError                      (* any failure of the DuckDB engine *)
| ConstraintException              (* PRIMARY KEY / NOT NULL violation *)
| HTTPException (status_code : Z) (detail : string).

Inductive result (A : Type) : Type :=
| Ok (a : A)
| Raise (e : exn).
Arguments Ok {A} a.
Arguments Raise {A} e.

Definition is_ok {A} (r : result A) : bool :=
  match r with Ok _ => true | Raise _ => false end.

(** [str(e)], as used by [detail=str(e)] and the log messages.  Starlette
    prints an [HTTPException] as "<status>: <detail>". *)
Definition str_of_exn (e : exn) : string :=
  match e with
  | ValueError msg => msg
  | IndexError => "list index out of range"
  | AttributeError => "'NoneType' object has no attribute 'get'"
  | ValidationError _ => "validation error"
  | EngineError => "engine error"
  | ConstraintException => "Constraint Error"
  | HTTPException sc d => pretty sc +:+ ": " +:+ d
  end.

(** Truth value of an [Optional[str]]: [None] and the empty string are
    false. *)
Definition truthy (o : option string) : bool :=
  match o with
  | Some s => negb (String.eqb s "")
  | None => false
  end.

(** [len(l)] as a Python int. *)
Definition len {A} (l : list A) : Z := Z.of_nat (length l).

(** [l[:n]]: a negative bound counts from the end. *)
Definition slice_to {A} (l : list A) (n : Z) : list A :=
  if n <? 0 then take (Z.to_nat (len l + n)) l else take (Z.to_nat n) l.

(** [l[i]]: a negative index counts from the end, an index out of range
    raises [IndexError]. *)
Definition index {A} (l : list A) (i : Z) : result A :=
  let j := if i <? 0 then len l + i else i in
  if j <? 0 then Raise IndexError
  else match l !! Z.to_nat j with
       | Some x => Ok x
       | None => Raise IndexError
       end.

(** ASCII case mapping of [str.upper] and [str.lower]; bytes outside
    a-z / A-Z are left as they are. *)
Definition upper_char (c : ascii) : ascii :=
  let n := nat_of_ascii c in
  if (97 <=? n)%nat && (n <=? 122)%nat then ascii_of_nat (n - 32) else c.
Definition lower_char (c : ascii) : ascii :=
  let n := nat_of_ascii c in
  if (65 <=? n)%nat && (n <=? 90)%nat then ascii_of_nat (n + 32) else c.

Fixpoint upper (s : string) : string :=
  match s with
  | "" => ""
  | String c s' => String (upper_char c) (upper s')
  end.
Fixpoint lower (s : string) : string :=
  match s with
  | "" => ""
  | String c s' => String (lower_char c) (lower s')
  end.

(** [s.split(sep)] for a one-character separator: never empty. *)
Fixpoint split (sep : ascii) (s : string) : list string :=
  match s with
  | "" => [""]
  | String c s' =>
      if Ascii.eqb c sep then "" :: split sep s'
      else match split sep s' with
           | h :: t => String c h :: t
           | [] => [String c ""]
           end
  end.

Definition is_digit (c : ascii) : bool :=
  let n := nat_of_ascii c in (48 <=? n)%nat && (n <=? 57)%nat.
Definition digit_val (c : ascii) : Z := Z.of_nat (nat_of_ascii c) - 48.

(** White space stripped by [int()]: \t \n \v \f \r, \x1c..\x1f, space. *)
Definition is_space (c : ascii) : bool :=
  let n := nat_of_ascii c in
  ((9 <=? n)%nat && (n <=? 13)%nat) || ((28 <=? n)%nat && (n <=? 32)%nat).

Fixpoint lstrip (s : string) : string :=
  match s with
  | String c s' => if is_space c then lstrip s' else s
  | "" => ""
  end.
Definition strip (s : string) : string :=
  String.rev (lstrip (String.rev (lstrip s))).

(** Digits of a decimal literal; single underscores may separate digits. *)
Fixpoint int_digits (acc : Z) (after_digit : bool) (s : string) : option Z :=
  match s with
  | "" => if after_digit then Some acc else None
  | String c s' =>
      if is_digit c then int_digits (10 * acc + digit_val c) true s'
      else if Ascii.eqb c "_" then
             if after_digit then int_digits acc false s' else None
           else None
  end.

(** [int(s)] on a string: surrounding white space, an optional sign, then
    decimal digits.  [None] is [ValueError]. *)
Definition int (s : string) : option Z :=
  match strip s with
  | String "+" s' => int_digits 0 false s'
  | String "-" s' => Z.opp <$> int_digits 0 false s'
  | s' => int_digits 0 false s'
  end.

(** [datetime.date(year, month, day)] succeeds exactly on these triples. *)
Definition is_leap (y : Z) : bool :=
  (y mod 4 =? 0) && (negb (y mod 100 =? 0) || (y mod 400 =? 0)).
Definition days_in_month (y m : Z) : Z :=
  if m =? 2 then (if is_leap y then 29 else 28)
  else if (m =? 4) || (m =? 6) || (m =? 9) || (m =? 11) then 30
  else 31.
Definition date_ok (y m d : Z) : bool :=
  (1 <=? y) && (y <=? 9999) && (1 <=? m) && (m <=? 12)
  && (1 <=? d) && (d <=? days_in_month y m).

End Py.

Import Py.

(* ===================================================================== *)
(** * models.py *)
(* ===================================================================== *)

Module Models.

(** One row of a frame (and of the [transactions] table): the twelve
    columns, each nullable. *)
Record Row : Type := mkRow {
  transaction_id : option string;
  amount : option Q;
  currency : option string;
  transaction_type : option string;
  status : option string;
  date : option string;
  customer_id : option string;
  customer_name : option string;
  customer_email : option string;
  ip_address : option string;
  device : option string;
  location : option string
}.

Definition columns : list string :=
  ["transaction_id"; "amount"; "currency"; "transaction_type"; "status";
   "date"; "customer_id"; "customer_name"; "customer_email"; "ip_address";
   "device"; "location"].

(** Values of [class TransactionType(str, Enum)] and of
    [class TransactionStatus(str, Enum)]. *)
Definition TransactionType : list string :=
  ["PAYMENT"; "DEPOSIT"; "WITHDRAWAL"; "TRANSFER"; "REFUND"].
Definition TransactionStatus : list string :=
  ["COMPLETED"; "PENDING"; "FAILED"; "CANCELLED"].

(** [TransactionBase.validate_date_format]. *)
Definition validate_date_format (v : string) : result string :=
  match Py.int <$> Py.split "-" v with
  | [Some year; Some month; Some day] =>
      if Py.date_ok year month day then Ok v
      else Raise (ValueError "Invalid date format. Expected YYYY-MM-DD")
  | _ => Raise (ValueError "Invalid date format. Expected YYYY-MM-DD")
  end.

(** Field checks of pydantic; each returns the offending field names. *)
Definition check_str (name : string) (v : option string) : list string :=
  match v with Some _ => [] | None => [name] end.

(** [float = Field(..., gt=0)] *)
Definition check_amount (v : option Q) : list string :=
  match v with
  | Some q => if (0 <? Qnum q)%Z then [] else ["amount"]
  | None => ["amount"]
  end.

(** A field typed by a [str] enum accepts exactly the values of its
    members. *)
Definition check_enum (name : string) (members : list string)
    (v : option string) : list string :=
  match v with
  | Some s => if bool_decide (s ∈ members) then [] else [name]
  | None => [name]
  end.

Definition check_date (v : option string) : list string :=
  match v with
  | Some s => if is_ok (validate_date_format s) then [] else ["date"]
  | None => ["date"]
  end.

(** [class TransactionBase(BaseModel)] *)
Definition TransactionBase_errors (r : Row) : list string :=
  check_str "transaction_id" (transaction_id r)
  ++ check_amount (amount r)
  ++ check_str "currency" (currency r)
  ++ check_enum "transaction_type" TransactionType (transaction_type r)
  ++ check_enum "status" TransactionStatus (status r)
  ++ check_date (date r).

(** [class TransactionFlat(TransactionBase)]: the three optional fields
    accept null and never fail. *)
Definition TransactionFlat_errors (r : Row) : list string :=
  TransactionBase_errors r
  ++ check_str "customer_id" (customer_id r)
  ++ check_str "customer_name" (customer_name r)
  ++ check_str "customer_email" (customer_email r).

(** [TransactionFlat] built from the row *)
Definition TransactionFlat (r : Row) : result Row :=
  match TransactionFlat_errors r with
  | [] => Ok r
  | fields => Raise (ValidationError fields)
  end.

(** [TransactionResponse.validate_enums], a [pre=True] validator: it runs
    before the enum check. *)
Definition validate_enums (v : option string) : option string :=
  Py.upper <$> v.

(** [TransactionResponse] built from a stored row *)
Definition TransactionResponse (r : Row) : result Row :=
  let r' := mkRow (transaction_id r) (amount r) (currency r)
              (validate_enums (transaction_type r))
              (validate_enums (status r))
              (date r) (customer_id r) (customer_name r) (customer_email r)
              (ip_address r) (device r) (location r) in
  match TransactionFlat_errors r' with
  | [] => Ok r'
  | fields => Raise (ValidationError fields)
  end.

End Models.

Import Models.

(* ===================================================================== *)
(** * data_processor.py *)
(* ===================================================================== *)

Module Processor.

(** [df.is_empty()] on a frame, [not l] on a list. *)
Definition is_empty {A} (df : list A) : bool :=
  match df with [] => true | _ => false end.

(** What [df.unique(subset=["transaction_id"])] guarantees: one row is
    kept for each id; which one is not specified. *)
Record Unique : Type := {
  unique :> list Row → list Row;
  unique_NoDup : ∀ df, NoDup (transaction_id <$> unique df);
  unique_subset : ∀ df r, r ∈ unique df → r ∈ df;
  unique_ids : ∀ df r,
    r ∈ df → transaction_id r ∈ transaction_id <$> unique df
}.

(** One implementation: the first row of each id is kept. *)
Fixpoint keep_first (seen : list (option string)) (df : list Row) : list Row :=
  match df with
  | [] => []
  | r :: df' =>
      if bool_decide (transaction_id r ∈ seen) then keep_first seen df'
      else r :: keep_first (transaction_id r :: seen) df'
  end.

(** A sub-object of a JSON item: the key is absent, or its value is not an
    object (so [.get] on it raises), or it is an object. *)
Inductive JSub (A : Type) : Type :=
| JAbsent
| JNotObject
| JObject (a : A).
Arguments JAbsent {A}.
Arguments JNotObject {A}.
Arguments JObject {A} a.

Record JCustomer : Type := {
  jc_customer_id : option string;
  jc_name : option string;
  jc_email : option string
}.
Record JMetadata : Type := {
  jm_ip_address : option string;
  jm_device : option string;
  jm_location : option string
}.
Record JItem : Type := {
  j_transaction_id : option string;
  j_amount : option Q;
  j_currency : option string;
  j_transaction_type : option string;
  j_status : option string;
  j_date : option string;
  j_customer : JSub JCustomer;
  j_metadata : JSub JMetadata
}.

(** The files of the drop location, as the two readers see them: [None]
    when [pl.read_csv], resp. [open]/[json.load], raises. *)
Record FileSystem : Type := {
  csv_content : string → option (list Row);
  json_content : string → option (list JItem)
}.

(** [item.get(key, {}).get(field)] *)
Definition get_sub {A} (sub : JSub A) (field : A → option string)
    : result (option string) :=
  match sub with
  | JAbsent => Ok None
  | JNotObject => Raise AttributeError
  | JObject a => Ok (field a)
  end.

Definition flatten_item (item : JItem) : result Row :=
  match get_sub (j_customer item) jc_customer_id,
        get_sub (j_customer item) jc_name,
        get_sub (j_customer item) jc_email,
        get_sub (j_metadata item) jm_ip_address,
        get_sub (j_metadata item) jm_device,
        get_sub (j_metadata item) jm_location with
  | Ok cid, Ok cname, Ok cemail, Ok ip, Ok dev, Ok loc =>
      Ok (mkRow (j_transaction_id item) (j_amount item) (j_currency item)
            (j_transaction_type item) (j_status item) (j_date item)
            cid cname cemail ip dev loc)
  | _, _, _, _, _, _ => Raise AttributeError
  end.

Fixpoint flatten (data : list JItem) : result (list Row) :=
  match data with
  | [] => Ok []
  | item :: data' =>
      match flatten_item item with
      | Ok flat_item =>
          match flatten data' with
          | Ok flat_data => Ok (flat_item :: flat_data)
          | Raise e => Raise e
          end
      | Raise e => Raise e
      end
  end.

Section files.
Context (fs : FileSystem) (U : Unique).

Definition read_csv_file (file_path : string) : list Row :=
  match csv_content fs file_path with
  | Some df => df
  | None => []
  end.

Definition read_json_file (file_path : string) : list Row :=
  match json_content fs file_path with
  | Some data =>
      match flatten data with
      | Ok flat_data => flat_data
      | Raise _ => []
      end
  | None => []
  end.

(** [validate_data]: the rows that [TransactionFlat] accepts, in order. *)
Fixpoint validate_data (df : list Row) : list Row :=
  match df with
  | [] => []
  | row :: df' =>
      match TransactionFlat row with
      | Ok _ => row :: validate_data df'
      | Raise _ => validate_data df'
      end
  end.

(** [invalid_count] of [validate_data]. *)
Definition invalid_count (df : list Row) : nat :=
  length df - length (validate_data df).

Definition fill_null (v : option string) (d : string) : option string :=
  match v with Some s => Some s | None => Some d end.

(** [lambda x: str(x).upper() if x else None], applied to non-null
    elements. *)
Definition upper_elem (v : option string) : option string :=
  match v with
  | Some x => if Py.truthy (Some x) then Some (Py.upper x) else None
  | None => None
  end.

Definition has_column (c : string) : bool := bool_decide (c ∈ columns).

Definition clean_row (r : Row) : Row :=
  mkRow (transaction_id r) (amount r) (currency r)
    (upper_elem (transaction_type r)) (upper_elem (status r)) (date r)
    (customer_id r) (customer_name r) (customer_email r)
    (if has_column "ip_address" then fill_null (ip_address r) "unknown"
     else ip_address r)
    (if has_column "device" then fill_null (device r) "unknown"
     else device r)
    (if has_column "location" then fill_null (location r) "unknown"
     else location r).

Definition clean_data (df : list Row) : list Row :=
  if is_empty df then df
  else U (clean_row <$> df).

(** [os.path.splitext(p)[1]] on a POSIX path. *)
Definition splitext_ext (p : string) : string :=
  let base := List.last (Py.split "/" p) "" in
  match reverse (Py.split "." base) with
  | [] | [_] => ""
  | suffix :: before =>
      if forallb (String.eqb "") before then "" else "." +:+ suffix
  end.

Definition process_file (file_path : string) : list Row :=
  let ext := splitext_ext file_path in
  if String.eqb (Py.lower ext) ".csv" then
    let df := read_csv_file file_path in
    if is_empty df then df else clean_data (validate_data df)
  else if String.eqb (Py.lower ext) ".json" then
    let df := read_json_file file_path in
    if is_empty df then df else clean_data (validate_data df)
  else [].

(** The loop of [process_multiple_files]: the frames and the paths of
    the files that gave a non-empty frame. *)
Fixpoint process_each (file_paths : list string)
    : list (list Row) * list string :=
  match file_paths with
  | [] => ([], [])
  | file_path :: rest =>
      let df := process_file file_path in
      let '(dfs, successfully_processed) := process_each rest in
      if negb (is_empty df) then (df :: dfs, file_path :: successfully_processed)
      else (dfs, successfully_processed)
  end.

(** The tracker file holds a set of paths; [get_processed_files] reads
    it and [update_processed_files] adds paths to it.  The file is modelled
    by the set it holds: reading and writing it succeed. *)
Definition get_processed_files (tracker : gset string) : gset string :=
  tracker.
Definition update_processed_files (file_paths : list string)
    (tracker : gset string) : gset string :=
  get_processed_files tracker ∪ list_to_set file_paths.

(** [process_multiple_files]: the returned frame and the tracker
    afterwards. *)
Definition process_multiple_files (file_paths : list string)
    (incremental : bool) (tracker : gset string)
    : list Row * gset string :=
  let new_files :=
    if incremental
    then filter (λ f, f ∉ get_processed_files tracker) file_paths
    else file_paths in
  if incremental && is_empty new_files then ([], tracker)
  else
    let '(dfs, successfully_processed) := process_each new_files in
    let tracker' :=
      if incremental && negb (is_empty successfully_processed)
      then update_processed_files successfully_processed tracker
      else tracker in
    if is_empty dfs then ([], tracker')
    else (U (concat dfs), tracker').

End files.

End Processor.

Import Processor.

(* ===================================================================== *)
(** * db.py *)
(* ===================================================================== *)

Module Db.

(** The state behind a [DuckDBHandler]: the rows of [transactions] in
    insertion order, and which of the coming engine calls fail ([true] at
    the head: the next call raises).  A healthy connection has no fault
    left. *)
Record Conn : Type := mkConn {
  table : list Row;
  faults : list bool
}.

Definition healthy (tbl : list Row) : Conn := mkConn tbl [].

(** Code that uses the connection: it returns or raises, and leaves a
    connection behind. *)
Definition DB (A : Type) : Type := Conn → result A * Conn.

Definition ret {A} (a : A) : DB A := λ c, (Ok a, c).
Definition raise {A} (e : exn) : DB A := λ c, (Raise e, c).
Definition lift {A} (r : result A) : DB A := λ c, (r, c).
Definition bind {A B} (m : DB A) (k : A → DB B) : DB B := λ c,
  match m c with
  | (Ok a, c') => k a c'
  | (Raise e, c') => (Raise e, c')
  end.
(** [try: body except Exception as e: handler] *)
Definition try_except {A} (body : DB A) (handler : exn → DB A) : DB A := λ c,
  match body c with
  | (Ok a, c') => (Ok a, c')
  | (Raise e, c') => handler e c'
  end.

Notation "x <-- m ;; k" := (bind m (λ x, k))
  (at level 100, m at next level, right associativity).

(** The table declares [transaction_id VARCHAR PRIMARY KEY]: ids are not
    null and pairwise distinct. *)
Definition primary_key (tbl : list Row) : Prop :=
  NoDup (transaction_id <$> tbl) ∧ Forall is_Some (transaction_id <$> tbl).

Definition tick (c : Conn) : bool * Conn :=
  match faults c with
  | failed :: rest => (failed, mkConn (table c) rest)
  | [] => (false, c)
  end.

(** [self.conn.execute(query).fetch...()]: a read of the table. *)
Definition execute {A} (query : list Row → result A) : DB A := λ c,
  let '(failed, c') := tick c in
  if failed then (Raise EngineError, c')
  else (query (table c'), c').

(** [self.conn.append("transactions", rows)]: all rows are inserted, or
    the key constraint is violated and none is. *)
Definition append (rows : list Row) : DB () := λ c,
  let '(failed, c') := tick c in
  if failed then (Raise EngineError, c')
  else if bool_decide (primary_key (table c' ++ rows))
       then (Ok (), mkConn (table c' ++ rows) (faults c'))
       else (Raise ConstraintException, c').

(** SQL comparisons of a nullable column with a parameter: a null never
    satisfies them. *)
Definition sql_ge (col : option string) (p : string) : bool :=
  match col with Some v => String.leb p v | None => false end.
Definition sql_le (col : option string) (p : string) : bool :=
  match col with Some v => String.leb v p | None => false end.
Definition sql_gt (col : option string) (p : string) : bool :=
  match col with Some v => String.ltb p v | None => false end.

(** [where_clause]: a clause is added for a bound that is given and not
    empty; with no clause the condition is "1=1". *)
Definition where_clause (start_date end_date : option string) (r : Row)
    : bool :=
  (match start_date with
   | Some p => if Py.truthy start_date then sql_ge (date r) p else true
   | None => true
   end)
  && (match end_date with
      | Some p => if Py.truthy end_date then sql_le (date r) p else true
      | None => true
      end).

Definition cursor_clause (cursor : option string) (r : Row) : bool :=
  match cursor with
  | Some p => if Py.truthy cursor then sql_gt (transaction_id r) p else true
  | None => true
  end.

(** [ORDER BY transaction_id]: ascending, nulls last. *)
Definition id_le (a b : option string) : Prop :=
  match a, b with
  | Some x, Some y => String.le x y
  | _, None => True
  | None, Some _ => False
  end.
Definition row_le (r1 r2 : Row) : Prop :=
  id_le (transaction_id r1) (transaction_id r2).

Global Instance id_le_dec : RelDecision id_le.
Proof. intros [x|] [y|]; simpl; apply _. Defined.
Global Instance row_le_dec : RelDecision row_le.
Proof. intros r1 r2. unfold row_le. apply _. Defined.

Definition order_by_id (rows : list Row) : list Row := merge_sort row_le rows.

(** [LIMIT n]; the engine rejects a negative [n]. *)
Definition sql_limit (n : Z) (rows : list Row) : result (list Row) :=
  if n <? 0 then Raise EngineError else Ok (take (Z.to_nat n) rows).

(** [SELECT transaction_id FROM transactions] *)
Definition select_ids (tbl : list Row) : result (list (option string)) :=
  Ok (transaction_id <$> tbl).
(** [SELECT COUNT( * ) FROM transactions] *)
Definition select_count (tbl : list Row) : result nat := Ok (length tbl).
(** [count_query] *)
Definition count_query (start_date end_date : option string)
    (tbl : list Row) : result nat :=
  Ok (length (filter (λ r, where_clause start_date end_date r = true) tbl)).
(** The rows that [query] selects, before its LIMIT. *)
Definition matching (start_date end_date cursor : option string)
    (tbl : list Row) : list Row :=
  order_by_id
    (filter (λ r, where_clause start_date end_date r
                  && cursor_clause cursor r = true) tbl).
(** [query] *)
Definition query (start_date end_date cursor : option string) (limit : Z)
    (tbl : list Row) : result (list Row) :=
  sql_limit (limit + 1) (matching start_date end_date cursor tbl).

(** [DuckDBHandler.store_data] *)
Definition store_data (df : list Row) : DB nat :=
  if is_empty df then ret 0%nat
  else
    try_except
      (existing_ids <-- execute select_ids ;;
       if negb (is_empty df) && has_column "transaction_id" then
         let new_records :=
           filter (λ r, transaction_id r ∉ existing_ids) df in
         if is_empty new_records then ret 0%nat
         else
           _ <-- append new_records ;;
           count <-- execute select_count ;;
           ret (length new_records)
       else ret 0%nat)
      (λ e, ret 0%nat).

(** The body of the [try] of [get_transactions] once the rows are
    fetched. *)
Definition page (results : list Row) (cursor : option string) (limit : Z)
    (total_count : nat)
    : result (list Row * option string * option string * nat) :=
  let records := Py.slice_to results limit in
  let next_cursor :=
    if Py.len results >? limit
    then match Py.index results (limit - 1) with
         | Ok row => Ok (transaction_id row)
         | Raise e => Raise e
         end
    else Ok None in
  let prev_cursor := if Py.truthy cursor then cursor else None in
  match next_cursor with
  | Ok next_cursor => Ok (records, next_cursor, prev_cursor, total_count)
  | Raise e => Raise e
  end.

(** [DuckDBHandler.get_transactions] *)
Definition get_transactions (start_date end_date cursor : option string)
    (limit : Z) : DB (list Row * option string * option string * nat) :=
  total_count <-- execute (count_query start_date end_date) ;;
  try_except
    (results <-- execute (query start_date end_date cursor limit) ;;
     lift (page results cursor limit total_count))
    (λ e, ret ([], None, None, 0%nat)).

(** Running [m] relates the table before to the table after by [R]. *)
Definition table_rel (R : relation (list Row)) {A} (m : DB A) : Prop :=
  ∀ c, R (table c) (table (m c).2).

End Db.

(* ===================================================================== *)
(** * main.py: the ingestion run *)
(* ===================================================================== *)

Module Main.

(** The ingestion core of [run_pipeline], from the downloaded [files] on:
    the state is the tracker file and the database.  [None] is the early
    return, [Some n] the logged number of stored records.  Generation of
    sample data, download and archival are outside the model. *)
Definition run_pipeline (fs : FileSystem) (U : Unique) (files : list string)
    (incremental : bool) (st : gset string * Db.Conn)
    : option nat * (gset string * Db.Conn) :=
  let '(tracker, db) := st in
  if is_empty files then (None, st)
  else
    let '(processed_data, tracker') :=
      process_multiple_files fs U files incremental tracker in
    if is_empty processed_data then (None, (tracker', db))
    else
      match Db.store_data processed_data db with
      | (Ok records_stored, db') => (Some records_stored, (tracker', db'))
      | (Raise _, db') => (None, (tracker', db'))
      end.

End Main.

(* ===================================================================== *)
(** * api.py: the query endpoint *)
(* ===================================================================== *)

Module Api.

(** [class PaginatedTransactionResponse] *)
Record PaginatedTransactionResponse : Type := {
  data : list Row;
  next_cursor : option string;
  prev_cursor : option string;
  total : nat
}.

(** The directives of the format "%Y-%m-%d" as [_strptime] compiles them:
    each returns the ways its regular expression matches a prefix, in the
    order the alternatives are tried, with the rest of the input. *)
Definition digit_in (lo hi : nat) (c : ascii) : bool :=
  let n := nat_of_ascii c in (48 + lo <=? n)%nat && (n <=? 48 + hi)%nat.

(** %Y: \d\d\d\d *)
Definition directive_Y (s : string) : list (Z * string) :=
  match s with
  | String a (String b (String c (String d rest))) =>
      if Py.is_digit a && Py.is_digit b && Py.is_digit c && Py.is_digit d
      then [(1000 * Py.digit_val a + 100 * Py.digit_val b
             + 10 * Py.digit_val c + Py.digit_val d, rest)]
      else []
  | _ => []
  end.

(** Two digits, the first in lo1..hi1 and the second in lo2..hi2, read as
    a number; one digit in lo..hi; a space and then one digit. *)
Definition two_chars (lo1 hi1 lo2 hi2 : nat) (s : string)
    : list (Z * string) :=
  match s with
  | String a (String b rest) =>
      if digit_in lo1 hi1 a && digit_in lo2 hi2 b
      then [(10 * Py.digit_val a + Py.digit_val b, rest)] else []
  | _ => []
  end.
Definition one_char (lo hi : nat) (s : string) : list (Z * string) :=
  match s with
  | String a rest =>
      if digit_in lo hi a then [(Py.digit_val a, rest)] else []
  | _ => []
  end.
Definition space_then (lo hi : nat) (s : string) : list (Z * string) :=
  match s with
  | String " " rest => one_char lo hi rest
  | _ => []
  end.

(** %m: 1[0-2]|0[1-9]|[1-9] *)
Definition directive_m (s : string) : list (Z * string) :=
  two_chars 1 1 0 2 s ++ two_chars 0 0 1 9 s ++ one_char 1 9 s.
(** %d: 3[0-1]|[1-2]\d|0[1-9]|[1-9]| [1-9] *)
Definition directive_d (s : string) : list (Z * string) :=
  two_chars 3 3 0 1 s ++ two_chars 1 2 0 9 s ++ two_chars 0 0 1 9 s
  ++ one_char 1 9 s ++ space_then 1 9 s.
Definition literal (c : ascii) (s : string) : list string :=
  match s with
  | String a rest => if Ascii.eqb a c then [rest] else []
  | _ => []
  end.

(** [datetime.strptime(s, "%Y-%m-%d")]: the first match of the expression
    must consume the whole string and name a real date. *)
Definition strptime_ymd (s : string) : result (Z * Z * Z) :=
  let matches :=
    '(y, s1) ← directive_Y s;
    s2 ← literal "-" s1;
    '(m, s3) ← directive_m s2;
    s4 ← literal "-" s3;
    '(d, s5) ← directive_d s4;
    [(y, m, d, s5)] in
  match matches with
  | [] => Raise (ValueError "time data does not match format")
  | (y, m, d, rest) :: _ =>
      if negb (String.eqb rest "")
      then Raise (ValueError "unconverted data remains")
      else if Py.date_ok y m d then Ok (y, m, d)
      else Raise (ValueError "day is out of range for month")
  end.

(** [limit: int = Query(100, ge=1, le=1000)]: the framework supplies the
    default and rejects a value out of range before the endpoint runs. *)
Definition limit_default : Z := 100.
Definition limit_ge : Z := 1.
Definition limit_le : Z := 1000.
Definition limit_param (given : option Z) : result Z :=
  match given with
  | None => Ok limit_default
  | Some l =>
      if (limit_ge <=? l) && (l <=? limit_le) then Ok l
      else Raise (HTTPException 422 "limit")
  end.

(** The date check of the endpoint: [strptime] in a [try] whose handler
    raises the 400. *)
Definition check_date_param (name : string) (v : option string)
    : result () :=
  match v with
  | Some s =>
      if Py.truthy v then
        match strptime_ymd s with
        | Ok _ => Ok ()
        | Raise _ =>
            Raise (HTTPException 400
                     ("Invalid " +:+ name +:+ " format. Use YYYY-MM-DD"))
        end
      else Ok ()
  | None => Ok ()
  end.

(** The loop that converts rows to response models: a row that fails to
    convert is logged and left out. *)
Fixpoint to_responses (transactions : list Row) : list Row :=
  match transactions with
  | [] => []
  | t :: rest =>
      match TransactionResponse t with
      | Ok response => response :: to_responses rest
      | Raise _ => to_responses rest
      end
  end.

(** [get_transactions], the handler of GET /transactions: everything is
    inside one [try] whose [except Exception] raises a 500.  The
    dependencies of the route (API key, rate limit, opening the database)
    are outside the model. *)
Definition get_transactions (start_date end_date cursor : option string)
    (limit : Z) : Db.DB PaginatedTransactionResponse :=
  Db.try_except
    (Db.bind (Db.lift (check_date_param "start_date" start_date)) (λ _,
     Db.bind (Db.lift (check_date_param "end_date" end_date)) (λ _,
     Db.bind (Db.get_transactions start_date end_date cursor limit)
       (λ '(transactions, next_cursor, prev_cursor, total),
        Db.ret {| data := to_responses transactions;
                  next_cursor := next_cursor;
                  prev_cursor := prev_cursor;
                  total := total |}))))
    (λ e, Db.raise (HTTPException 500 (Py.str_of_exn e))).

(** The route: parameter validation by the framework, then the handler. *)
Definition transactions_route (start_date end_date cursor : option string)
    (limit : option Z) : Db.DB PaginatedTransactionResponse :=
  Db.bind (Db.lift (limit_param limit))
    (get_transactions start_date end_date cursor).

End Api.

(* ===================================================================== *)
(** * A client that reads all pages *)
(* ===================================================================== *)

Module Client.

(** The scan of the pagination property: call [get_transactions] with the
    same filter and limit, first without a cursor and then with the
    [next_cursor] of the previous answer, until an answer has none; the
    pages are concatenated.  [fuel] bounds the number of calls: [None]
    when it runs out (or a call raises). *)
Fixpoint scan (start_date end_date : option string) (limit : Z)
    (fuel : nat) (cursor : option string) (c : Db.Conn)
    : option (list Row) :=
  match fuel with
  | O => None
  | S fuel' =>
      match Db.get_transactions start_date end_date cursor limit c with
      | (Ok (records, Some next_cursor, _, _), c') =>
          (records ++.) <$>
            scan start_date end_date limit fuel' (Some next_cursor) c'
      | (Ok (records, None, _, _), _) => Some records
      | (Raise _, _) => None
      end
  end.

(** Strictly ascending ids. *)
Definition id_lt (r1 r2 : Row) : Prop :=
  match transaction_id r1, transaction_id r2 with
  | Some a, Some b => String.ltb a b = true
  | _, _ => False
  end.

(** The cursor that a client holds after the pages [done]: none at the
    start, then the id of the last row received. *)
Definition cursor_after (done : list Row) (cursor : option string) : Prop :=
  (done = [] ∧ cursor = None)
  ∨ (∃ before x i, done = before ++ [x] ∧ transaction_id x = Some i
                   ∧ cursor = Some i).

End Client.

(* ===================================================================== *)
(** * main.py: cleaning up old files *)
(* ===================================================================== *)

Module Housekeeping.

(** An entry of the directory that is cleaned up: its name, its
    modification time as [os.path.getmtime] gives it, and whether
    [os.remove] succeeds on it (on a directory, or without the permission,
    it raises).  A directory is the list of its entries in the order in
    which [glob] meets them; the names of a directory are pairwise
    distinct. *)
Record Entry : Type := mkEntry {
  name : string;
  mtime : Z;
  removable : bool
}.

(** [s.endswith(suffix)] *)
Definition endswith (s suffix : string) : bool :=
  String.prefix (String.rev suffix) (String.rev s).

(** An extension that [glob] reads as it is written: none of the
    characters * ? [ occurs in it. *)
Definition literal_ext (ext : string) : Prop :=
  Forall (λ c : ascii, c ∉ ["*"; "?"; "["]%char) (list_ascii_of_string ext).

(** [glob.glob(os.path.join(directory, "*" + ext))] for a literal [ext]:
    the entries whose name ends with [ext]; a pattern that starts with *
    does not match a name that starts with a dot. *)
Definition glob_star (ext : string) (directory : list Entry) : list Entry :=
  filter (λ e, endswith (name e) ext && negb (String.prefix "." (name e))
               = true) directory.

(** [files.sort(key=os.path.getmtime, reverse=True)]: newest first, files
    of the same time in the order they had. *)
Fixpoint insert_newest_first (e : Entry) (sorted : list Entry) : list Entry :=
  match sorted with
  | [] => [e]
  | x :: rest =>
      if mtime e <? mtime x then x :: insert_newest_first e rest
      else e :: sorted
  end.
Definition sort_newest_first (files : list Entry) : list Entry :=
  foldr insert_newest_first [] files.

(** [l[n:]]: a negative bound counts from the end. *)
Definition slice_from {A} (l : list A) (n : Z) : list A :=
  if n <? 0 then drop (Z.to_nat (Py.len l + n)) l else drop (Z.to_nat n) l.

(** [os.remove(old_file)] in its [try]: the entry goes, or the error is
    logged and the directory stays as it is. *)
Definition remove (old_file : Entry) (directory : list Entry) : list Entry :=
  if removable old_file
  then filter (λ e, name e ≠ name old_file) directory
  else directory.

(** The body of the loop of [cleanup_old_files] for one extension. *)
Definition cleanup_ext (max_files_to_keep : Z) (directory : list Entry)
    (ext : string) : list Entry :=
  let files := sort_newest_first (glob_star ext directory) in
  if Py.len files >? max_files_to_keep
  then foldl (λ d old_file, remove old_file d) directory
         (slice_from files max_files_to_keep)
  else directory.

(** [cleanup_old_files(directory, max_files_to_keep, extensions)] *)
Definition cleanup_old_files (directory : list Entry) (max_files_to_keep : Z)
    (extensions : option (list string)) : list Entry :=
  let extensions :=
    match extensions with
    | None => [".csv"; ".json"]
    | Some exts => exts
    end in
  foldl (cleanup_ext max_files_to_keep) directory extensions.

End Housekeeping.

(* ===================================================================== *)
(** * data_generator.py: the records of the sample files *)
(* ===================================================================== *)

Module Generator.

(** [date.strftime("%Y-%m-%d")] for a year of four digits (1000..9999):
    the three numbers zero padded to four, two and two digits. *)
Definition digit_char (k : Z) : ascii := ascii_of_nat (Z.to_nat (48 + k)).
Definition two_digits (n : Z) : string :=
  String (digit_char (n / 10)) (String (digit_char (n mod 10)) "").
Definition four_digits (n : Z) : string :=
  two_digits (n / 100) +:+ two_digits (n mod 100).
Definition strftime_ymd (y m d : Z) : string :=
  four_digits y +:+ "-" +:+ two_digits m +:+ "-" +:+ two_digits d.

Definition transaction_types : list string :=
  ["PAYMENT"; "DEPOSIT"; "WITHDRAWAL"; "TRANSFER"; "REFUND"].
Definition statuses : list string :=
  ["COMPLETED"; "PENDING"; "FAILED"; "CANCELLED"].
Definition devices : list string := ["mobile"; "desktop"; "tablet"].
Definition locations : list string :=
  ["Nairobi"; "Mombasa"; "Kisumu"; "Eldoret"; "Nakuru"].

(** What the random source gives for one record: the uuid, the rounded
    amount, the position that each [random.choice] picks, the day of
    [transaction_date] and the numbers of the [randint] calls. *)
Record Draws : Type := {
  uuid4 : string;
  amount_drawn : Q;
  type_pick : nat;
  status_pick : nat;
  transaction_date : Z * Z * Z;
  customer_no : Z;
  name_no : Z;
  email_no : Z;
  ip_no : Z;
  device_pick : nat;
  location_pick : nat
}.

(** [random.choice(seq)], given the position drawn. *)
Definition choice (seq : list string) (pick : nat) : string :=
  default "" (seq !! pick).

Definition date_str (dr : Draws) : string :=
  let '(y, m, d) := transaction_date dr in strftime_ymd y m d.

(** The dict [transaction], as [read_json_file] finds it in the JSON
    file, with its two sub-dicts. *)
Definition customer (dr : Draws) : JCustomer :=
  {| jc_customer_id := Some ("CUST-" +:+ pretty (customer_no dr));
     jc_name := Some ("Customer " +:+ pretty (name_no dr));
     jc_email := Some ("customer" +:+ pretty (email_no dr)
                       +:+ "@example.com") |}.
Definition metadata (dr : Draws) : JMetadata :=
  {| jm_ip_address := Some ("192.168.0." +:+ pretty (ip_no dr));
     jm_device := Some (choice devices (device_pick dr));
     jm_location := Some (choice locations (location_pick dr)) |}.
Definition transaction (dr : Draws) : JItem :=
  {| j_transaction_id := Some (uuid4 dr);
     j_amount := Some (amount_drawn dr);
     j_currency := Some "KES";
     j_transaction_type := Some (choice transaction_types (type_pick dr));
     j_status := Some (choice statuses (status_pick dr));
     j_date := Some (date_str dr);
     j_customer := JObject (customer dr);
     j_metadata := JObject (metadata dr) |}.

(** The dict [flat_record] that is written as a row of the CSV file:
    [record["customer"]] is [customer dr], [record["metadata"]] is
    [metadata dr]. *)
Definition flat_record (dr : Draws) : Row :=
  let record := transaction dr in
  mkRow (j_transaction_id record) (j_amount record) (j_currency record)
    (j_transaction_type record) (j_status record) (j_date record)
    (jc_customer_id (customer dr)) (jc_name (customer dr))
    (jc_email (customer dr))
    (jm_ip_address (metadata dr)) (jm_device (metadata dr))
    (jm_location (metadata dr)).

(** The draws that the calls of [random] can give: [uniform(10.0, 1000.0)]
    rounded, [choice] inside its list, a real day with a year of four
    digits, [randint] inside its bounds. *)
Definition in_range (dr : Draws) : Prop :=
  (10 <= amount_drawn dr)%Q ∧ (amount_drawn dr <= 1000)%Q
  ∧ (type_pick dr < length transaction_types)%nat
  ∧ (status_pick dr < length statuses)%nat
  ∧ (let '(y, m, d) := transaction_date dr in
     Py.date_ok y m d = true ∧ 1000 <= y)
  ∧ 1000 <= customer_no dr <= 9999
  ∧ 1 <= name_no dr <= 100
  ∧ 1 <= email_no dr <= 100
  ∧ 1 <= ip_no dr <= 255
  ∧ (device_pick dr < length devices)%nat
  ∧ (location_pick dr < length locations)%nat.

(** Calendar order of two days. *)
Definition date_le (a b : Z * Z * Z) : Prop :=
  let '(y1, m1, d1) := a in
  let '(y2, m2, d2) := b in
  y1 < y2 ∨ (y1 = y2 ∧ (m1 < m2 ∨ (m1 = m2 ∧ d1 <= d2))).

End Generator.

(* ===================================================================== *)
(** * Properties *)
(* ===================================================================== *)

(** ** Indexing and slicing *)

Section py_lists.
Context {A : Type}.
Implicit Types (l : list A) (n i : Z).

Lemma slice_to_nonneg l n : 0 <= n → Py.slice_to l n = take (Z.to_nat n) l.
Proof.
  intros Hn. unfold Py.slice_to.
  destruct (Z.ltb_spec n 0) as [?|_]; [lia | reflexivity].
Qed.

Lemma length_slice_to l n : 0 <= n → Py.len (Py.slice_to l n) <= n.
Proof.
  intros Hn. rewrite slice_to_nonneg by done.
  unfold Py.len. rewrite length_take. lia.
Qed.

Lemma index_in_range l i :
  0 <= i → i < Py.len l →
  ∃ x, l !! Z.to_nat i = Some x ∧ Py.index l i = Ok x.
Proof.
  unfold Py.len, Py.index. intros Hi Hlen.
  destruct (Z.ltb_spec i 0) as [?|_]; [lia|].
  destruct (Z.ltb_spec i 0) as [?|_]; [lia|].
  destruct (lookup_lt_is_Some_2 l (Z.to_nat i)) as [x Hx]; [lia|].
  exists x. by rewrite Hx.
Qed.
End py_lists.

(** ** The page of [get_transactions] *)

Lemma page_ok (results : list Row) cursor limit total_count :
  1 <= limit →
  ∃ next,
    Db.page results cursor limit total_count
    = Ok (take (Z.to_nat limit) results, next,
          (if Py.truthy cursor then cursor else None), total_count)
    ∧ (Py.len results <= limit → next = None)
    ∧ (limit < Py.len results →
       ∃ row, results !! Z.to_nat (limit - 1) = Some row
              ∧ next = transaction_id row).
Proof.
  intros Hl. unfold Db.page. rewrite slice_to_nonneg by lia.
  destruct (Z.gtb_spec (Py.len results) limit) as [Hgt|Hle].
  - destruct (index_in_range results (limit - 1)) as (row & Hrow & ->);
      [lia..|].
    eexists; split; [reflexivity|]. split; [lia|]. eauto.
  - eexists; split; [reflexivity|]. split; [done|lia].
Qed.

Lemma get_transactions_healthy tbl start_date end_date cursor limit :
  0 <= limit + 1 →
  Db.get_transactions start_date end_date cursor limit (Db.healthy tbl)
  = (match Db.page (take (Z.to_nat (limit + 1))
                      (Db.matching start_date end_date cursor tbl))
             cursor limit
             (length (filter (λ r, Db.where_clause start_date end_date r = true)
                        tbl)) with
     | Ok r => Ok r
     | Raise _ => Ok ([], None, None, 0%nat)
     end, Db.healthy tbl).
Proof.
  intros Hl.
  unfold Db.get_transactions, Db.bind, Db.try_except, Db.execute, Db.lift,
    Db.ret, Db.query, Db.sql_limit, Db.count_query. simpl.
  destruct (Z.ltb_spec (limit + 1) 0) as [?|_]; [lia|].
  by destruct (Db.page _ _ _ _).
Qed.

(** C10.  For a limit of at least 1 and any fetched rows, the body of
    [get_transactions] returns normally with at most [limit] records;
    [results[limit-1]] is read only when more than [limit] rows were
    fetched, where it is in range, and a result set of at most [limit] rows
    gives no next cursor. *)
Theorem C10_page_index_in_bounds (results : list Row) cursor limit total_count :
  1 <= limit →
  ∃ records next prev,
    Db.page results cursor limit total_count
    = Ok (records, next, prev, total_count)
    ∧ Py.len records <= limit
    ∧ (Py.len results <= limit → records = results ∧ next = None)
    ∧ (limit < Py.len results →
       ∃ row, Py.index results (limit - 1) = Ok row
              ∧ next = transaction_id row).
Proof.
  intros Hl.
  destruct (page_ok results cursor limit total_count Hl)
    as (next & Hpage & Hshort & Hlong).
  eexists _, next, _. split; [exact Hpage|]. split; [|split].
  - unfold Py.len. rewrite length_take. lia.
  - intros Hle. split; [|by apply Hshort].
    apply take_ge. unfold Py.len in Hle. lia.
  - intros Hlt. destruct (Hlong Hlt) as (row & Hrow & ->).
    destruct (index_in_range results (limit - 1)) as (row' & Hrow' & Hidx);
      [lia..|].
    exists row. split; [|done]. congruence.
Qed.

Lemma C10_page_index_in_bounds_witness :
  let results :=
    [mkRow (Some "a") None None None None None None None None None None None;
     mkRow (Some "b") None None None None None None None None None None None] in
  1 <= 1
  ∧ ∃ records next prev,
      Db.page results None 1 2 = Ok (records, next, prev, 2%nat)
      ∧ Py.len records <= 1
      ∧ (Py.len results <= 1 → records = results ∧ next = None)
      ∧ (1 < Py.len results →
         ∃ row, Py.index results (1 - 1) = Ok row
                ∧ next = transaction_id row).
Proof.
  intros results. assert (HL : 1 <= 1) by lia.
  split; [done|].
  exact (C10_page_index_in_bounds results None 1 2%nat HL).
Defined.



(** ** What the connection code does to the table *)

Section table_relation.
Context (R : relation (list Row)) `{!PreOrder R}.

Lemma table_rel_ret {A} (a : A) : Db.table_rel R (Db.ret a).
Proof. intros c. reflexivity. Qed.
Lemma table_rel_lift {A} (r : result A) : Db.table_rel R (Db.lift r).
Proof. intros c. reflexivity. Qed.
Lemma table_rel_execute {A} (q : list Row → result A) :
  Db.table_rel R (Db.execute q).
Proof.
  intros c. unfold Db.execute, Db.tick.
  destruct (Db.faults c) as [|[] ?]; reflexivity.
Qed.
Lemma table_rel_bind {A B} (m : Db.DB A) (k : A → Db.DB B) :
  Db.table_rel R m → (∀ a, Db.table_rel R (k a)) → Db.table_rel R (Db.bind m k).
Proof.
  intros Hm Hk c. unfold Db.bind. specialize (Hm c).
  destruct (m c) as [[a|e] c']; simpl in *; [|done].
  etrans; [exact Hm | apply Hk].
Qed.
Lemma table_rel_try_except {A} (body : Db.DB A) handler :
  Db.table_rel R body → (∀ e, Db.table_rel R (handler e)) →
  Db.table_rel R (Db.try_except body handler).
Proof.
  intros Hm Hk c. unfold Db.try_except. specialize (Hm c).
  destruct (body c) as [[a|e] c']; simpl in *; [done|].
  etrans; [exact Hm | apply Hk].
Qed.
End table_relation.



Lemma get_transactions_reads sd ed cur limit :
  Db.table_rel eq (Db.get_transactions sd ed cur limit).
Proof.
  unfold Db.get_transactions.
  apply table_rel_bind; [apply _|apply table_rel_execute; apply _|].
  intros total.
  apply table_rel_try_except; [apply _| |intros; apply table_rel_ret; apply _].
  apply table_rel_bind; [apply _|apply table_rel_execute; apply _|].
  intros results. apply table_rel_lift; apply _.
Qed.




(** ** [store_data] on a healthy connection *)

Lemma store_data_healthy df tbl :
  let new_records :=
    filter (λ r, transaction_id r ∉ transaction_id <$> tbl) df in
  Db.store_data df (Db.healthy tbl)
  = if bool_decide (Db.primary_key (tbl ++ new_records))
    then (Ok (length new_records), Db.healthy (tbl ++ new_records))
    else (Ok 0%nat, Db.healthy tbl).
Proof.
  intros new_records. unfold Db.store_data.
  destruct df as [|r df]; simpl.
  { subst new_records. rewrite filter_nil, app_nil_r.
    by case_bool_decide. }
  unfold Db.try_except, Db.bind, Db.execute, Db.append, Db.ret,
    Db.select_ids, Db.select_count; simpl.
  change (has_column "transaction_id") with true; simpl.
  fold new_records.
  destruct new_records as [|r' new'] eqn:Hnew; simpl.
  { rewrite app_nil_r. by case_bool_decide. }
  by case_bool_decide.
Qed.

Lemma primary_key_app tbl (rows : list Row) :
  Db.primary_key tbl →
  NoDup (transaction_id <$> rows) →
  Forall is_Some (transaction_id <$> rows) →
  (∀ r, r ∈ rows → transaction_id r ∉ transaction_id <$> tbl) →
  Db.primary_key (tbl ++ rows).
Proof.
  intros [Hnd Hsome] Hnd' Hsome' Hnew. split.
  - rewrite fmap_app. apply NoDup_app. split; [done|]. split; [|done].
    intros i Hi Hi'. apply list_elem_of_fmap in Hi' as (r & -> & Hr).
    by apply (Hnew r).
  - rewrite fmap_app. by apply Forall_app.
Qed.

Lemma new_records_key tbl (df : list Row) :
  Db.primary_key tbl →
  NoDup (transaction_id <$> df) →
  Forall is_Some (transaction_id <$> df) →
  Db.primary_key
    (tbl ++ filter (λ r, transaction_id r ∉ transaction_id <$> tbl) df).
Proof.
  intros Hpk Hnd Hsome. apply primary_key_app; [done| | |].
  - eapply sublist_NoDup; [exact Hnd|].
    apply fmap_sublist, sublist_filter.
  - rewrite Forall_forall in Hsome |- *. intros i Hi. apply Hsome.
    eapply elem_of_sublist; [exact Hi|].
    apply fmap_sublist, sublist_filter.
  - intros r Hr. by apply list_elem_of_filter in Hr as [? _].
Qed.

(** C1, as the code has it.  Given a table that satisfies its key and a
    frame whose ids are not null and pairwise distinct, [store_data]
    appends exactly the rows of the frame whose id is not in the table,
    after the rows already there, which are left as they are, and returns
    their number: with k ids of the frame already in the table and m new
    ones it appends m rows.  The ids of the table stay pairwise
    distinct. *)
Theorem C1_store_data_appends_new tbl df :
  Db.primary_key tbl →
  NoDup (transaction_id <$> df) →
  Forall is_Some (transaction_id <$> df) →
  let new_records :=
    filter (λ r, transaction_id r ∉ transaction_id <$> tbl) df in
  let known :=
    filter (λ r, transaction_id r ∈ transaction_id <$> tbl) df in
  Db.store_data df (Db.healthy tbl)
  = (Ok (length new_records), Db.healthy (tbl ++ new_records))
  ∧ (length known + length new_records = length df)%nat
  ∧ Db.primary_key (tbl ++ new_records).
Proof.
  intros Hpk Hnd Hsome new_records known.
  pose proof (new_records_key tbl df Hpk Hnd Hsome) as Hkey.
  fold new_records in Hkey.
  split; [|split; [|done]].
  - rewrite store_data_healthy. fold new_records. by rewrite bool_decide_true.
  - subst known new_records. clear. induction df as [|r df IH]; [done|].
    rewrite !filter_cons. destruct (decide (_ ∈ _)), (decide (_ ∉ _));
      simpl; try lia; done.
Qed.

Lemma C1_store_data_appends_new_witness :
  let r (i : string) :=
    mkRow (Some i) None None None None None None None None None None None in
  let tbl := [r "a"] in
  let df := [r "a"; r "b"] in
  (Db.primary_key tbl
   ∧ NoDup (transaction_id <$> df)
   ∧ Forall is_Some (transaction_id <$> df))
  ∧ Db.store_data df (Db.healthy tbl) = (Ok 1%nat, Db.healthy (tbl ++ [r "b"]))
  ∧ (1 + 1 = 2)%nat
  ∧ Db.primary_key (tbl ++ [r "b"]).
Proof.
  intros r tbl df.
  assert (Hpk : Db.primary_key tbl).
  { apply (bool_decide_unpack _). vm_compute. exact I. }
  assert (Hnd : NoDup (transaction_id <$> df)).
  { apply (bool_decide_unpack _). vm_compute. exact I. }
  assert (Hsome : Forall is_Some (transaction_id <$> df)).
  { apply (bool_decide_unpack _). vm_compute. exact I. }
  split; [done|].
  exact (C1_store_data_appends_new tbl df Hpk Hnd Hsome).
Defined.

(** C1, as stated, fails on a frame in which two rows carry the same new
    id: the append violates the key, the handler returns 0 and no row is
    stored, while both rows have an id that is not in the table. *)
Lemma C1_counterexample :
  ¬ (∀ tbl df,
       Db.primary_key tbl →
       let new_records :=
         filter (λ r, transaction_id r ∉ transaction_id <$> tbl) df in
       Db.store_data df (Db.healthy tbl)
       = (Ok (length new_records), Db.healthy (tbl ++ new_records))).
Proof.
  intros H.
  specialize (H [] [mkRow (Some "x") (Some 1%Q) None None None None None None
                      None None None None;
                    mkRow (Some "x") (Some 2%Q) None None None None None None
                      None None None None]).
  assert (Hpk : Db.primary_key []) by (split; constructor).
  specialize (H Hpk). vm_compute in H. discriminate H.
Qed.

(** ** Validation *)

(** C4.  The code drops a record whose enum fields are not in upper case:
    [TransactionFlat] compares them with the member values as they are, and
    [clean_data], which would put them in upper case, runs after it.  The
    same record in upper case is kept, and [TransactionResponse], which
    converts before checking, accepts the lower-case one. *)
Theorem C4_lowercase_enum_dropped (U : Unique) :
  let raw ty st :=
    mkRow (Some "t1") (Some 5%Q) (Some "KES") (Some ty) (Some st)
      (Some "2024-01-05") (Some "c1") (Some "Ann") (Some "ann@example.com")
      None None None in
  let fs ty st :=
    {| csv_content := λ _, Some [raw ty st]; json_content := λ _, None |} in
  TransactionFlat (raw "payment" "Completed")
  = Raise (ValidationError ["transaction_type"; "status"])
  ∧ validate_data [raw "payment" "Completed"] = []
  ∧ invalid_count [raw "payment" "Completed"] = 1%nat
  ∧ process_file (fs "payment" "Completed") U "in/a.csv" = []
  ∧ validate_data [raw "PAYMENT" "COMPLETED"] = [raw "PAYMENT" "COMPLETED"]
  ∧ is_ok (TransactionResponse (raw "payment" "Completed")) = true.
Proof. repeat split; reflexivity. Qed.

(** In general: a row whose [transaction_type] is not, as it is written,
    the value of a member is dropped, whatever its upper-case form is. *)
Lemma enum_checked_as_written (r : Row) (ty : string) :
  transaction_type r = Some ty → ty ∉ TransactionType →
  validate_data [r] = [].
Proof.
  intros Hty Hnot. simpl. unfold TransactionFlat.
  assert (Herr : TransactionFlat_errors r ≠ []).
  { unfold TransactionFlat_errors, TransactionBase_errors.
    rewrite Hty. unfold check_enum at 1. rewrite bool_decide_false by done.
    intros Hnil. repeat (apply app_eq_nil in Hnil as [? Hnil]).
    repeat match goal with H : _ ++ _ = [] |- _ =>
             apply app_eq_nil in H as [? ?] end.
    discriminate. }
  by destruct (TransactionFlat_errors r).
Qed.

(** C9.  The validator accepts the date "2024-1-5", which is not zero
    padded; as a string it comes after "2024-01-31", so a query for the
    dates up to 2024-01-31 leaves the record of 5 January 2024 out. *)
Theorem C9_unpadded_date_accepted :
  let r :=
    mkRow (Some "t1") (Some 5%Q) (Some "KES") (Some "PAYMENT")
      (Some "COMPLETED") (Some "2024-1-5") (Some "c1") (Some "Ann")
      (Some "ann@example.com") None None None in
  validate_date_format "2024-1-5" = Ok "2024-1-5"
  ∧ TransactionFlat r = Ok r
  ∧ validate_data [r] = [r]
  ∧ String.ltb "2024-01-31" "2024-1-5" = true
  ∧ Db.get_transactions None (Some "2024-01-31") None 10 (Db.healthy [r])
    = (Ok ([], None, None, 0%nat), Db.healthy [r]).
Proof. repeat split; reflexivity. Qed.

(** ** The query endpoint *)

(** C7.  A malformed [start_date] or [end_date] is answered with status
    500, not 400: the [HTTPException] with status 400 is raised inside the
    [try] of the handler, whose [except Exception] turns it into a 500.
    The connection is left as it was. *)
Theorem C7_malformed_date_answers_500 other cursor limit db :
  Api.get_transactions (Some "2024-13-40") other cursor limit db
  = (Raise (HTTPException 500
              "400: Invalid start_date format. Use YYYY-MM-DD"), db)
  ∧ Api.get_transactions None (Some "yesterday") cursor limit db
    = (Raise (HTTPException 500
                "400: Invalid end_date format. Use YYYY-MM-DD"), db).
Proof. split; reflexivity. Qed.

(** In general: whenever the start date is given, not empty and refused by
    [strptime], the answer is the 500 that wraps the 400. *)
Lemma malformed_start_date_500 (s : string) other cursor limit db :
  s ≠ "" → is_ok (Api.strptime_ymd s) = false →
  Api.get_transactions (Some s) other cursor limit db
  = (Raise (HTTPException 500
              "400: Invalid start_date format. Use YYYY-MM-DD"), db).
Proof.
  intros Hs Hbad.
  unfold Api.get_transactions, Db.try_except, Db.bind, Db.lift,
    Api.check_date_param.
  assert (Py.truthy (Some s) = true) as ->.
  { simpl. by apply negb_true_iff, String.eqb_neq. }
  by destruct (Api.strptime_ymd s).
Qed.

(** The limit of the route: 100 when absent, and a value outside 1..1000
    does not reach the handler. *)
Lemma limit_param_spec (given : option Z) :
  match Api.limit_param given with
  | Ok l => 1 <= l <= 1000 ∧ (given = None → l = 100)
  | Raise _ => ∃ l, given = Some l ∧ ¬ (1 <= l <= 1000)
  end.
Proof.
  unfold Api.limit_param, Api.limit_ge, Api.limit_le, Api.limit_default.
  destruct given as [l|]; [|split; [lia|done]].
  destruct (Z.leb_spec 1 l), (Z.leb_spec l 1000); simpl;
    (split; [lia|done]) || (exists l; split; [done|lia]).
Qed.

(** ** Deduplication *)

Lemma keep_first_subset seen df r : r ∈ keep_first seen df → r ∈ df.
Proof.
  revert seen. induction df as [|x df IH]; intros seen; simpl; [done|].
  case_bool_decide.
  - intros ?. right. eauto.
  - intros [->|?]%elem_of_cons; [left|right; eauto].
Qed.

Lemma keep_first_fresh seen df r :
  r ∈ keep_first seen df → transaction_id r ∉ seen.
Proof.
  revert seen. induction df as [|x df IH]; intros seen; simpl.
  { by intros ?%elem_of_nil. }
  case_bool_decide as Hx; [by apply IH|].
  intros [->|Hr]%elem_of_cons; [done|].
  apply IH in Hr. by apply not_elem_of_cons in Hr as [_ ?].
Qed.

Lemma keep_first_NoDup seen df : NoDup (transaction_id <$> keep_first seen df).
Proof.
  revert seen. induction df as [|x df IH]; intros seen; simpl; [constructor|].
  case_bool_decide as Hx; [apply IH|].
  rewrite fmap_cons. constructor; [|apply IH].
  intros (r & Hid & Hr)%list_elem_of_fmap.
  apply keep_first_fresh in Hr. apply Hr. rewrite <- Hid. by left.
Qed.

Lemma keep_first_ids seen df r :
  r ∈ df →
  transaction_id r ∈ seen
  ∨ transaction_id r ∈ transaction_id <$> keep_first seen df.
Proof.
  revert seen. induction df as [|x df IH]; intros seen; simpl.
  { by intros ?%elem_of_nil. }
  intros [->|Hr]%elem_of_cons.
  - case_bool_decide; [by left|]. right. rewrite fmap_cons. by left.
  - case_bool_decide; [by apply IH|].
    destruct (IH (transaction_id x :: seen) Hr) as [[->|?]%elem_of_cons|?].
    + right. rewrite fmap_cons. by left.
    + by left.
    + right. rewrite fmap_cons. by right.
Qed.

(** Keeping the first row of each id is an implementation of [unique]. *)
Lemma keep_first_Unique : Unique.
Proof.
  refine {| unique := keep_first [] |}.
  - apply keep_first_NoDup.
  - apply keep_first_subset.
  - intros df r Hr.
    destruct (keep_first_ids [] df r Hr) as [?%elem_of_nil|?]; done.
Defined.

Lemma unique_is_empty (U : Unique) df : is_empty (U df) = is_empty df.
Proof.
  destruct df as [|r df]; simpl.
  - destruct (U []) as [|x l] eqn:E; [done|].
    assert (x ∈ U []) as ?%unique_subset%elem_of_nil by (rewrite E; left).
    done.
  - assert (Hr : r ∈ r :: df) by left.
    apply (unique_ids U) in Hr. by destruct (U (r :: df)); [inv Hr|].
Qed.


(** ** Files *)

Lemma validate_data_spec df r :
  r ∈ validate_data df ↔ r ∈ df ∧ TransactionFlat_errors r = [].
Proof.
  induction df as [|x df IH]; simpl.
  { split; [by intros ?%elem_of_nil | by intros [?%elem_of_nil _]]. }
  unfold TransactionFlat.
  destruct (TransactionFlat_errors x) eqn:Hx.
  - rewrite !elem_of_cons, IH. split.
    + intros [->|[? ?]]; [split; [by left|done]|split; [by right|done]].
    + intros [[->|?] ?]; [by left|by right].
  - rewrite elem_of_cons, IH. split.
    + intros [? ?]. split; [by right|done].
    + intros [[->|?] Hr]; [by rewrite Hx in Hr|done].
Qed.

Lemma valid_row_has_id r :
  TransactionFlat_errors r = [] → is_Some (transaction_id r).
Proof.
  unfold TransactionFlat_errors, TransactionBase_errors, check_str.
  destruct (transaction_id r); [eauto|done].
Qed.

Section file_facts.
Context (fs : FileSystem).

(** What a file gives does not depend on [unique] but for the choice of
    the row kept for each id. *)
Lemma process_file_shape file_path :
  ∃ cleaned : list Row,
    (∀ r, r ∈ cleaned → is_Some (transaction_id r))
    ∧ ∀ U : Unique,
        process_file fs U file_path
        = if is_empty cleaned then [] else U cleaned.
Proof.
  assert (Hgen : ∀ raw : list Row,
    ∃ cleaned : list Row,
      (∀ r, r ∈ cleaned → is_Some (transaction_id r))
      ∧ ∀ U : Unique,
          (if is_empty raw then raw else clean_data U (validate_data raw))
          = if is_empty cleaned then [] else U cleaned).
  { intros raw. exists (clean_row <$> validate_data raw). split.
    - intros r (r0 & -> & Hr0)%list_elem_of_fmap.
      apply validate_data_spec in Hr0 as [_ Hok].
      by apply valid_row_has_id in Hok.
    - intros U. unfold clean_data.
      destruct raw as [|x raw]; [done|]. simpl is_empty at 1.
      by destruct (validate_data (x :: raw)). }
  unfold process_file.
  destruct (String.eqb _ ".csv"); [apply Hgen|].
  destruct (String.eqb _ ".json"); [apply Hgen|].
  exists []. split; [by intros ? ?%elem_of_nil|done].
Qed.


Lemma process_file_is_empty (U1 U2 : Unique) file_path :
  is_empty (process_file fs U1 file_path)
  = is_empty (process_file fs U2 file_path).
Proof.
  destruct (process_file_shape file_path) as (cl & _ & Heq).
  rewrite !Heq. destruct (is_empty cl) eqn:E; [done|].
  by rewrite !unique_is_empty.
Qed.


Lemma process_each_paths U file_paths :
  (process_each fs U file_paths).2
  = filter (λ f, is_empty (process_file fs U f) = false) file_paths.
Proof.
  induction file_paths as [|f l IH]; [done|]. simpl.
  destruct (process_each fs U l) as [dfs ok]. simpl in IH. subst ok.
  rewrite filter_cons.
  destruct (decide (is_empty (process_file fs U f) = false)) as [E|E].
  - by rewrite E.
  - apply not_false_is_true in E. by rewrite E.
Qed.

Lemma process_each_rows U file_paths r :
  r ∈ concat (process_each fs U file_paths).1
  ↔ ∃ f, f ∈ file_paths ∧ r ∈ process_file fs U f.
Proof.
  induction file_paths as [|f l IH]; simpl.
  { split; [by intros ?%elem_of_nil | by intros (? & ?%elem_of_nil & _)]. }
  destruct (process_each fs U l) as [dfs ok]. simpl in IH.
  destruct (process_file fs U f) as [|x df] eqn:E.
  - simpl. rewrite IH. split.
    + intros (g & ? & ?). exists g. split; [by right|done].
    + intros (g & [->|?]%elem_of_cons & Hr).
      * rewrite E in Hr. by apply elem_of_nil in Hr.
      * eauto.
  - change (r ∈ ((x :: df) ++ concat dfs)%list
            ↔ ∃ g, g ∈ f :: l ∧ r ∈ process_file fs U g).
    rewrite elem_of_app, IH. split.
    + intros [?|(g & ? & ?)].
      * exists f. split; [left|by rewrite E].
      * exists g. split; [by right|done].
    + intros (g & [->|?]%elem_of_cons & Hr).
      * left. by rewrite E in Hr.
      * right; eauto.
Qed.

(** [process_multiple_files] in one equation: the tracker afterwards, and
    the rows of the frame. *)
Lemma process_multiple_files_spec U (file_paths : list string) (incremental : bool)
    (tracker : gset string) :
  let new_files :=
    if incremental then filter (λ f : string, f ∉ tracker) file_paths
    else file_paths in
  let out := process_multiple_files fs U file_paths incremental tracker in
  out.2 = (if incremental
           then tracker ∪ list_to_set
                  (filter (λ f, is_empty (process_file fs U f) = false)
                     new_files)
           else tracker)
  ∧ NoDup (transaction_id <$> out.1)
  ∧ (∀ r, r ∈ out.1 → ∃ f, f ∈ new_files ∧ r ∈ process_file fs U f)
  ∧ (∀ f r, f ∈ new_files → r ∈ process_file fs U f →
            transaction_id r ∈ transaction_id <$> out.1).
Proof.
  intros new_files out. subst out. unfold process_multiple_files.
  unfold get_processed_files. fold new_files. clearbody new_files.
  destruct (incremental && is_empty new_files) eqn:Early.
  { apply andb_true_iff in Early as [-> Hnil].
    destruct new_files as [|? ?]; [|done]. cbn [fst snd].
    split; [by rewrite filter_nil, list_to_set_nil, union_empty_r_L|].
    split; [constructor|].
    split; [by intros ? ?%elem_of_nil|]. by intros ? ? ?%elem_of_nil. }
  pose proof (process_each_paths U new_files) as Hpaths.
  pose proof (process_each_rows U new_files) as Hrows.
  destruct (process_each fs U new_files) as [dfs ok]. simpl in *.
  assert (Htr : (if incremental && negb (is_empty ok)
                 then update_processed_files ok tracker else tracker)
                = if incremental then tracker ∪ list_to_set ok else tracker).
  { destruct incremental; simpl; [|done].
    destruct ok; simpl; [by rewrite union_empty_r_L|done]. }
  rewrite Htr, <- Hpaths. clear Htr.
  destruct dfs as [|df dfs]; simpl.
  - split; [done|]. split; [constructor|].
    split; [by intros ? ?%elem_of_nil|].
    intros f r Hf Hr. exfalso.
    assert (Hin : r ∈ @nil Row) by (apply Hrows; eauto).
    by apply elem_of_nil in Hin.
  - split; [done|]. split; [apply unique_NoDup|]. split.
    + intros r Hr%unique_subset. by apply Hrows.
    + intros f r Hf Hr. apply unique_ids. apply Hrows. eauto.
Qed.
End file_facts.

(** ** The ingestion tracker *)

(** C6, as the code has it.  In an incremental run a file is consumed
    afterwards exactly when it was consumed before or it is one of the input
    files and gave at least one record; so an input file not consumed
    before is registered if and only if it gave a record.  A run that is
    not incremental leaves the tracker as it was. *)
Theorem C6_tracker_registration fs (U : Unique) (files : list string)
    (tracker : gset string) (f : string) :
  (f ∈ (process_multiple_files fs U files true tracker).2
   ↔ f ∈ tracker ∨ (f ∈ files ∧ process_file fs U f ≠ []))
  ∧ (process_multiple_files fs U files false tracker).2 = tracker.
Proof.
  split.
  - destruct (process_multiple_files_spec fs U files true tracker)
      as (-> & _).
    rewrite elem_of_union, elem_of_list_to_set, !list_elem_of_filter.
    assert (Hne : is_empty (process_file fs U f) = false
                  ↔ process_file fs U f ≠ []).
    { by destruct (process_file fs U f). }
    rewrite Hne. split.
    + intros [?|(? & ? & ?)]; [by left|by right].
    + intros [?|[? ?]]; [by left|].
      destruct (decide (f ∈ tracker)); [by left|by right].
  - by destruct (process_multiple_files_spec fs U files false tracker)
      as (-> & _).
Qed.

(** C6, as stated, fails when the run is not incremental: the file gives
    a record and is not registered. *)
Lemma C6_counterexample :
  ¬ (∀ fs (U : Unique) (files : list string) (incremental : bool)
       (tracker : gset string) (f : string),
       f ∈ files → f ∉ tracker →
       (f ∈ (process_multiple_files fs U files incremental tracker).2
        ↔ process_file fs U f ≠ [])).
Proof.
  intros H.
  pose (r := mkRow (Some "t1") (Some 5%Q) (Some "KES") (Some "PAYMENT")
               (Some "COMPLETED") (Some "2024-01-05") (Some "c1") (Some "Ann")
               (Some "ann@example.com") None None None).
  pose (fs := {| csv_content := λ _, Some [r]; json_content := λ _, None |}).
  specialize (H fs keep_first_Unique ["in/a.csv"] false ∅ "in/a.csv").
  destruct H as [_ H]; [by left|apply not_elem_of_empty|].
  destruct (process_multiple_files_spec fs keep_first_Unique ["in/a.csv"]
              false ∅) as (Heq & _).
  rewrite Heq in H. simpl in H.
  apply (not_elem_of_empty (C:=gset string) "in/a.csv").
  apply H. vm_compute. discriminate.
Qed.

(** ** Ingestion runs *)

Section filter_facts.
Context {A : Type} (P : A → Prop) `{!∀ x, Decision (P x)}.

Lemma filter_none (l : list A) : (∀ x, x ∈ l → ¬ P x) → filter P l = [].
Proof.
  induction l as [|y l IH]; intros Hall; [done|].
  rewrite filter_cons_False by (apply Hall; left).
  apply IH. intros x Hx. apply Hall. by right.
Qed.

Lemma filter_all (l : list A) : (∀ x, x ∈ l → P x) → filter P l = l.
Proof.
  induction l as [|y l IH]; intros Hall; [done|].
  rewrite filter_cons_True by (apply Hall; left).
  f_equal. apply IH. intros x Hx. apply Hall. by right.
Qed.
End filter_facts.


Lemma run_pipeline_unfold fs (U : Unique) files b tr db :
  Main.run_pipeline fs U files b (tr, db)
  = let out := process_multiple_files fs U files b tr in
    if is_empty out.1 then (None, (out.2, db))
    else match Db.store_data out.1 db with
         | (Ok n, db') => (Some n, (out.2, db'))
         | (Raise _, db') => (None, (out.2, db'))
         end.
Proof.
  unfold Main.run_pipeline. destruct files as [|f files].
  - by destruct b.
  - simpl is_empty at 1. cbv iota.
    by destruct (process_multiple_files fs U (f :: files) b tr).
Qed.


Lemma id_in_table_after (tbl pd : list Row) (i : option string) :
  i ∈ transaction_id <$> pd →
  i ∈ transaction_id
      <$> (tbl ++ filter (λ x, transaction_id x ∉ transaction_id <$> tbl) pd)%list.
Proof.
  intros (r & -> & Hr)%list_elem_of_fmap. rewrite fmap_app, elem_of_app.
  destruct (decide (transaction_id r ∈ transaction_id <$> tbl)); [by left|].
  right. apply list_elem_of_fmap. exists r. split; [done|].
  by apply list_elem_of_filter.
Qed.


(** ** Ordering by id *)

Lemma ltb_negb_leb (p v : string) : String.ltb p v = negb (String.leb v p).
Proof.
  unfold String.ltb, String.leb. rewrite (String.compare_antisym p v).
  by destruct (String.compare v p).
Qed.

Global Instance id_le_total : Total Db.id_le.
Proof.
  intros [x|] [y|]; simpl; auto. apply (total String.le).
Qed.
Global Instance id_le_trans : Transitive Db.id_le.
Proof.
  intros [x|] [y|] [z|]; simpl; try done. apply (transitivity (R:=String.le)).
Qed.
Global Instance row_le_total : Total Db.row_le.
Proof. intros r1 r2. apply (total Db.id_le). Qed.
Global Instance row_le_trans : Transitive Db.row_le.
Proof. intros r1 r2 r3. apply (transitivity (R:=Db.id_le)). Qed.

Lemma id_le_antisym (i j : string) :
  Db.id_le (Some i) (Some j) → Db.id_le (Some j) (Some i) → i = j.
Proof. simpl. apply (anti_symm String.le). Qed.

Lemma order_by_id_perm rows : Db.order_by_id rows ≡ₚ rows.
Proof. apply merge_sort_Permutation. Qed.

Lemma order_by_id_sorted rows : StronglySorted Db.row_le (Db.order_by_id rows).
Proof. apply StronglySorted_merge_sort; apply _. Qed.

Lemma StronglySorted_filter {A} (R : relation A) (P : A → Prop)
    `{!∀ x, Decision (P x)} (l : list A) :
  StronglySorted R l → StronglySorted R (filter P l).
Proof.
  induction 1 as [|x l Hl IH Hx]; [constructor|].
  rewrite filter_cons. destruct (decide (P x)); [|done].
  constructor; [done|].
  rewrite Forall_forall in Hx |- *. intros y [_ Hy]%list_elem_of_filter. auto.
Qed.

(** ** Tables that satisfy the key *)

Lemma primary_key_perm (l k : list Row) :
  l ≡ₚ k → Db.primary_key k → Db.primary_key l.
Proof.
  intros Hp [Hnd Hsome]. split; by rewrite Hp.
Qed.

Lemma primary_key_filter (P : Row → Prop) `{!∀ x, Decision (P x)} l :
  Db.primary_key l → Db.primary_key (filter P l).
Proof.
  intros [Hnd Hsome]. split.
  - eapply sublist_NoDup; [exact Hnd|]. apply fmap_sublist, sublist_filter.
  - rewrite Forall_forall in Hsome |- *. intros i Hi. apply Hsome.
    eapply elem_of_sublist; [exact Hi|]. apply fmap_sublist, sublist_filter.
Qed.

Lemma primary_key_id l r :
  Db.primary_key l → r ∈ l → ∃ i, transaction_id r = Some i.
Proof.
  intros [_ Hsome] Hr. rewrite Forall_forall in Hsome.
  destruct (Hsome (transaction_id r)) as [i Hi]; [|eauto].
  apply list_elem_of_fmap. eauto.
Qed.

Lemma primary_key_inj l r1 r2 :
  Db.primary_key l → r1 ∈ l → r2 ∈ l →
  transaction_id r1 = transaction_id r2 → r1 = r2.
Proof.
  intros [Hnd _]. revert Hnd.
  induction l as [|x l IH]; [by intros _ ?%elem_of_nil|].
  rewrite fmap_cons, NoDup_cons. intros [Hx Hnd] H1 H2 Heq.
  apply elem_of_cons in H1 as [->|H1]; apply elem_of_cons in H2 as [->|H2].
  - done.
  - exfalso. apply Hx. rewrite Heq. apply list_elem_of_fmap; eauto.
  - exfalso. apply Hx. rewrite <- Heq. apply list_elem_of_fmap; eauto.
  - by apply IH.
Qed.

(** Two lists in id order with the same rows, taken from a table that
    satisfies the key, are the same list. *)
Lemma sorted_rows_unique tbl (l k : list Row) :
  Db.primary_key tbl → (∀ r, r ∈ l → r ∈ tbl) →
  StronglySorted Db.row_le l → StronglySorted Db.row_le k → l ≡ₚ k → l = k.
Proof.
  intros Hpk Hsub Hl Hk Hperm.
  apply (StronglySorted_unique_strong Db.row_le); [|done..].
  intros x1 x2 H1 H2 H12 H21.
  assert (H2' : x2 ∈ l) by by rewrite Hperm.
  apply (primary_key_inj tbl); [done|auto..|].
  destruct (primary_key_id tbl x1) as [i Hi]; [done|auto|].
  destruct (primary_key_id tbl x2) as [j Hj]; [done|auto|].
  unfold Db.row_le in *. rewrite Hi, Hj in *. f_equal.
  by apply id_le_antisym.
Qed.

Section pages.
Context (tbl : list Row) (start_date end_date : option string).
Context (Hpk : Db.primary_key tbl).

Let full := Db.matching start_date end_date None tbl.

Lemma full_perm :
  full ≡ₚ filter (λ r, Db.where_clause start_date end_date r = true) tbl.
Proof.
  unfold full, Db.matching. rewrite order_by_id_perm.
  erewrite list_filter_iff; [done|]. intros r. simpl.
  by rewrite andb_true_r.
Qed.

Lemma full_in_table r : r ∈ full → r ∈ tbl.
Proof. rewrite full_perm. by intros [_ ?]%list_elem_of_filter. Qed.

Lemma full_key : Db.primary_key full.
Proof.
  eapply primary_key_perm; [apply full_perm|]. by apply primary_key_filter.
Qed.

(** The rows selected with a cursor are the rows of the full result that
    satisfy the cursor clause. *)
Lemma matching_cursor cursor :
  Db.matching start_date end_date cursor tbl
  = filter (λ r, Db.cursor_clause cursor r = true) full.
Proof.
  apply (sorted_rows_unique tbl); [done| | | |].
  - intros r. unfold Db.matching. rewrite order_by_id_perm.
    by intros [_ ?]%list_elem_of_filter.
  - apply order_by_id_sorted.
  - apply StronglySorted_filter, order_by_id_sorted.
  - rewrite full_perm. unfold Db.matching. rewrite order_by_id_perm.
    rewrite list_filter_filter.
    erewrite list_filter_iff; [done|]. intros r. simpl.
    rewrite andb_true_iff. tauto.
Qed.
End pages.

(** In a list in id order, the rows after the row with id [i] are the rows
    that the cursor [i] selects. *)
Lemma cursor_selects_suffix (before after : list Row) (x : Row) (i : string) :
  StronglySorted Db.row_le ((before ++ [x]) ++ after) →
  Db.primary_key ((before ++ [x]) ++ after) →
  transaction_id x = Some i → i ≠ "" →
  filter (λ r, Db.cursor_clause (Some i) r = true) ((before ++ [x]) ++ after)
  = after.
Proof.
  intros Hsorted Hpk Hx Hi.
  assert (Htruthy : Py.truthy (Some i) = true).
  { simpl. by apply negb_true_iff, String.eqb_neq. }
  assert (Hlow : ∀ y, y ∈ before ++ [x] → Db.row_le y x).
  { intros y [Hy|Hy%list_elem_of_singleton]%elem_of_app.
    - apply StronglySorted_app_1_l in Hsorted.
      eapply StronglySorted_app_1_elem_of; [exact Hsorted|done|].
      by apply list_elem_of_singleton.
    - subst y. unfold Db.row_le. rewrite Hx. simpl. reflexivity. }
  rewrite filter_app, filter_none, filter_all; [done| |].
  - intros y Hy.
    destruct (primary_key_id _ y Hpk) as [j Hj]; [apply elem_of_app; by right|].
    unfold Db.cursor_clause. rewrite Htruthy, Hj. simpl.
    rewrite ltb_negb_leb. apply negb_true_iff, not_true_is_false. intros Hji.
    assert (Hxy : Db.row_le x y).
    { eapply StronglySorted_app_1_elem_of; [exact Hsorted| |done].
      apply elem_of_app. right. by apply list_elem_of_singleton. }
    unfold Db.row_le in Hxy. rewrite Hx, Hj in Hxy.
    assert (j = i) as ->.
    { apply id_le_antisym; [|done]. simpl. by apply Is_true_true. }
    assert (y = x) as ->.
    { apply (primary_key_inj _ y x Hpk).
      - apply elem_of_app; by right.
      - apply elem_of_app. left. apply elem_of_app. right.
        by apply list_elem_of_singleton.
      - by rewrite Hx, Hj. }
    destruct Hpk as [Hnd _]. rewrite fmap_app in Hnd.
    apply NoDup_app in Hnd as (_ & Hdisj & _).
    apply (Hdisj (transaction_id x)).
    + apply list_elem_of_fmap. exists x. split; [done|].
      apply elem_of_app. right. by apply list_elem_of_singleton.
    + apply list_elem_of_fmap. eauto.
  - intros y Hy Hsel. specialize (Hlow y Hy).
    destruct (primary_key_id _ y Hpk) as [j Hj]; [apply elem_of_app; by left|].
    unfold Db.cursor_clause in Hsel. rewrite Htruthy, Hj in Hsel.
    simpl in Hsel. rewrite ltb_negb_leb in Hsel.
    apply negb_true_iff in Hsel.
    unfold Db.row_le in Hlow. rewrite Hx, Hj in Hlow. simpl in Hlow.
    apply Is_true_true in Hlow. congruence.
Qed.

Section scan.
Context (tbl : list Row) (start_date end_date : option string) (L : Z).
Context (Hpk : Db.primary_key tbl).
Context (Hne : ∀ r, r ∈ tbl → transaction_id r ≠ Some "").
Context (HL : 1 <= L).

Let full := Db.matching start_date end_date None tbl.

Lemma matching_after (done rest : list Row) cursor :
  full = (done ++ rest)%list → Client.cursor_after done cursor →
  Db.matching start_date end_date cursor tbl = rest.
Proof.
  intros Hfull Hcur. rewrite matching_cursor by done. fold full.
  destruct Hcur as [[-> ->]|(before & x & i & -> & Hx & ->)].
  - simpl in Hfull. rewrite <- Hfull. by apply filter_all.
  - rewrite Hfull. apply cursor_selects_suffix; [| |done|].
    + rewrite <- Hfull. apply order_by_id_sorted.
    + rewrite <- Hfull. by apply full_key.
    + intros ->. apply (Hne x); [|done].
      apply full_in_table with start_date end_date. fold full.
      rewrite Hfull. apply elem_of_app. left. apply elem_of_app. right.
      by apply list_elem_of_singleton.
Qed.

Lemma scan_rest fuel : ∀ (done rest : list Row) cursor,
  full = (done ++ rest)%list → Client.cursor_after done cursor →
  (length rest < fuel)%nat →
  Client.scan start_date end_date L fuel cursor (Db.healthy tbl)
  = Some rest.
Proof.
  induction fuel as [|fuel IH]; intros done rest cursor Hfull Hcur Hfuel;
    [lia|].
  simpl. rewrite get_transactions_healthy by lia.
  rewrite (matching_after done rest cursor Hfull Hcur).
  destruct (page_ok (take (Z.to_nat (L + 1)) rest) cursor L
              (length (filter (λ r, Db.where_clause start_date end_date r
                                    = true) tbl)) HL)
    as (next & -> & Hshort & Hlong).
  rewrite take_take.
  replace (Z.to_nat L `min` Z.to_nat (L + 1))%nat with (Z.to_nat L) by lia.
  unfold Py.len in Hshort, Hlong. rewrite length_take in Hshort, Hlong.
  destruct (decide (length rest ≤ Z.to_nat L)%nat) as [Hle|Hgt].
  - rewrite Hshort by lia. f_equal. apply take_ge. lia.
  - destruct Hlong as (row & Hrow & ->); [lia|].
    rewrite lookup_take_lt in Hrow by lia.
    assert (Hin : row ∈ full).
    { rewrite Hfull. apply elem_of_app. right.
      by eapply list_elem_of_lookup_2. }
    destruct (primary_key_id full row) as [i Hi];
      [by apply full_key|done|].
    rewrite Hi.
    assert (Htake : take (Z.to_nat L) rest
                    = (take (Z.to_nat (L - 1)) rest ++ [row])%list).
    { replace (Z.to_nat L) with (S (Z.to_nat (L - 1))) by lia.
      by apply take_S_r. }
    rewrite (IH (done ++ take (Z.to_nat L) rest)%list
               (drop (Z.to_nat L) rest) (Some i)).
    + simpl. by rewrite take_drop.
    + by rewrite <- app_assoc, take_drop.
    + right. exists (done ++ take (Z.to_nat (L - 1)) rest)%list, row, i.
      split; [|done]. by rewrite Htake, app_assoc.
    + rewrite length_drop. lia.
Qed.

Lemma full_strictly_sorted : StronglySorted Client.id_lt full.
Proof.
  pose proof (full_key tbl start_date end_date Hpk) as Hkey.
  pose proof (order_by_id_sorted
                (filter (λ r, Db.where_clause start_date end_date r
                              && Db.cursor_clause None r = true) tbl))
    as Hsorted.
  fold (Db.matching start_date end_date None tbl) in Hsorted.
  fold full in Hkey, Hsorted. clearbody full.
  induction Hsorted as [|x l Hl IH Hx]; [constructor|].
  constructor.
  - apply IH. destruct Hkey as [Hnd Hsome].
    rewrite fmap_cons in Hnd, Hsome.
    apply NoDup_cons in Hnd as [_ ?]. apply Forall_cons in Hsome as [_ ?].
    by split.
  - rewrite Forall_forall in Hx |- *. intros y Hy. specialize (Hx y Hy).
    destruct (primary_key_id _ x Hkey) as [i Hi]; [left|].
    destruct (primary_key_id _ y Hkey) as [j Hj]; [by right|].
    unfold Client.id_lt, Db.row_le in *. rewrite Hi, Hj in *. simpl in Hx.
    rewrite ltb_negb_leb. apply negb_true_iff, not_true_is_false.
    intros Hji. assert (i = j) as ->.
    { apply id_le_antisym; [done|]. simpl. by apply Is_true_true. }
    assert (x = y) as ->.
    { apply (primary_key_inj _ x y Hkey); [left|by right|congruence]. }
    destruct Hkey as [Hnd _]. rewrite fmap_cons in Hnd.
    apply NoDup_cons in Hnd as [Hnd _]. apply Hnd.
    apply list_elem_of_fmap. eauto.
Qed.
End scan.

(** C2, as the code has it.  For a table that satisfies its key and holds
    no row with the empty id, any date filter and a limit L of at least 1:
    the scan that follows [next_cursor] until it is null ends (any number of
    calls above the number of matching rows is enough) and its pages,
    concatenated, are the rows that match the date filter, each once, in
    strictly ascending order of id. *)
Theorem C2_pagination_complete tbl start_date end_date L :
  Db.primary_key tbl →
  (∀ r, r ∈ tbl → transaction_id r ≠ Some "") →
  1 <= L →
  let full := Db.matching start_date end_date None tbl in
  (∀ fuel, (length full < fuel)%nat →
           Client.scan start_date end_date L fuel None (Db.healthy tbl)
           = Some full)
  ∧ full ≡ₚ filter (λ r, Db.where_clause start_date end_date r = true) tbl
  ∧ StronglySorted Client.id_lt full
  ∧ NoDup full.
Proof.
  intros Hpk Hne HL full. split; [|split; [|split]].
  - intros fuel Hfuel.
    apply (scan_rest tbl start_date end_date L Hpk Hne HL fuel [] full None);
      [done| |done].
    by left.
  - by apply full_perm.
  - by apply full_strictly_sorted.
  - destruct (full_key tbl start_date end_date Hpk) as [Hnd _].
    by apply NoDup_fmap_1 in Hnd.
Qed.

Lemma C2_pagination_complete_witness :
  let r (i : string) :=
    mkRow (Some i) None None None None (Some "2024-01-05") None None None
      None None None in
  let tbl := [r "c"; r "a"; r "b"] in
  (Db.primary_key tbl
   ∧ (∀ x, x ∈ tbl → transaction_id x ≠ Some "")
   ∧ 1 <= 2)
  ∧ let full := Db.matching None None None tbl in
    (∀ fuel, (length full < fuel)%nat →
             Client.scan None None 2 fuel None (Db.healthy tbl) = Some full)
    ∧ full ≡ₚ filter (λ x, Db.where_clause None None x = true) tbl
    ∧ StronglySorted Client.id_lt full
    ∧ NoDup full.
Proof.
  intros r tbl.
  assert (Hpk : Db.primary_key tbl).
  { apply (bool_decide_unpack _). vm_compute. exact I. }
  assert (Hne : ∀ x, x ∈ tbl → transaction_id x ≠ Some "").
  { apply Forall_forall. apply (bool_decide_unpack _). vm_compute. exact I. }
  assert (HL : 1 <= 2) by lia.
  split; [done|].
  exact (C2_pagination_complete tbl None None 2 Hpk Hne HL).
Defined.

Lemma scan_step sd ed L fuel cursor c :
  Client.scan sd ed L (S fuel) cursor c
  = match Db.get_transactions sd ed cursor L c with
    | (Ok (records, Some next_cursor, _, _), c') =>
        (records ++.) <$> Client.scan sd ed L fuel (Some next_cursor) c'
    | (Ok (records, None, _, _), _) => Some records
    | (Raise _, _) => None
    end.
Proof. reflexivity. Qed.

(** A record with the empty id passes validation, so it can be stored. *)
Lemma empty_id_is_valid :
  TransactionFlat_errors
    (mkRow (Some "") (Some 5%Q) (Some "KES") (Some "PAYMENT")
       (Some "COMPLETED") (Some "2024-01-05") (Some "c1") (Some "Ann")
       (Some "ann@example.com") None None None) = [].
Proof. reflexivity. Qed.

(** C2, as stated, fails on a table that holds a row with the empty id:
    with limit 1 the first page is that row and the next cursor is the
    empty string, which [get_transactions] takes for no cursor, so every
    call returns the first page again and the scan never ends. *)
Lemma C2_counterexample :
  ¬ (∀ tbl start_date end_date L,
       Db.primary_key tbl → 1 <= L →
       ∃ fuel,
         Client.scan start_date end_date L fuel None (Db.healthy tbl)
         = Some (Db.matching start_date end_date None tbl)).
Proof.
  intros H.
  pose (r := λ i : string,
          mkRow (Some i) (Some 5%Q) (Some "KES") (Some "PAYMENT")
            (Some "COMPLETED") (Some "2024-01-05") (Some "c1") (Some "Ann")
            (Some "ann@example.com") None None None).
  destruct (H [r ""; r "a"] None None 1) as [fuel Hscan].
  { apply (bool_decide_unpack _). vm_compute. exact I. }
  { lia. }
  assert (Hloop : ∀ fuel cursor,
            cursor = None ∨ cursor = Some "" →
            Client.scan None None 1 fuel cursor (Db.healthy [r ""; r "a"])
            = None).
  { clear. intros fuel. induction fuel as [|fuel IH]; intros cursor Hc; [done|].
    rewrite scan_step.
    assert (Hpage : Db.get_transactions None None cursor 1
                      (Db.healthy [r ""; r "a"])
                    = (Ok ([r ""], Some "", None, 2%nat),
                       Db.healthy [r ""; r "a"])).
    { destruct Hc as [-> | ->]; vm_compute; reflexivity. }
    rewrite Hpage. rewrite IH; [done|by right]. }
  rewrite Hloop in Hscan; [discriminate|by left].
Qed.


(* ===================================================================== *)
(** * Further properties of the pipeline *)
(* ===================================================================== *)

(** ** Rows that pass validation and cleaning *)

Lemma valid_row_fields (r : Row) :
  TransactionFlat_errors r = [] →
  is_Some (transaction_id r)
  ∧ (∃ q, amount r = Some q ∧ (0 < q)%Q)
  ∧ is_Some (currency r)
  ∧ (∃ ty, transaction_type r = Some ty ∧ ty ∈ TransactionType)
  ∧ (∃ st, status r = Some st ∧ st ∈ TransactionStatus)
  ∧ (∃ d, date r = Some d ∧ validate_date_format d = Ok d)
  ∧ is_Some (customer_id r)
  ∧ is_Some (customer_name r)
  ∧ is_Some (customer_email r).
Proof.
  unfold TransactionFlat_errors, TransactionBase_errors. intros H.
  repeat match goal with
         | H : _ ++ _ = [] |- _ => apply app_eq_nil in H as [? ?]
         end.
  unfold check_str, check_amount, check_enum, check_date in *.
  destruct (transaction_id r), (amount r) as [q|], (currency r),
    (transaction_type r) as [ty|], (status r) as [st|], (date r) as [d|],
    (customer_id r), (customer_name r), (customer_email r);
    try discriminate.
  repeat split; eauto.
  - exists q. split; [done|].
    destruct (Z.ltb_spec 0 (Qnum q)); [|discriminate].
    unfold Qlt. simpl. lia.
  - exists ty. split; [done|]. repeat case_bool_decide; by try discriminate.
  - exists st. split; [done|]. repeat case_bool_decide; by try discriminate.
  - exists d. split; [done|]. unfold validate_date_format in *.
    repeat case_match; try discriminate; done.
Qed.

Lemma upper_elem_type (ty : string) :
  ty ∈ TransactionType → upper_elem (Some ty) = Some ty.
Proof.
  unfold TransactionType. rewrite !elem_of_cons, elem_of_nil.
  intros [->|[->|[->|[->|[->|[]]]]]]; reflexivity.
Qed.

Lemma upper_elem_status (st : string) :
  st ∈ TransactionStatus → upper_elem (Some st) = Some st.
Proof.
  unfold TransactionStatus. rewrite !elem_of_cons, elem_of_nil.
  intros [->|[->|[->|[->|[]]]]]; reflexivity.
Qed.

(** On a valid row, cleaning fills the null optional fields and nothing
    else: the enum fields are in upper case already. *)
Lemma clean_valid_row (r : Row) :
  TransactionFlat_errors r = [] →
  clean_row r
  = mkRow (transaction_id r) (amount r) (currency r) (transaction_type r)
      (status r) (date r) (customer_id r) (customer_name r)
      (customer_email r) (fill_null (ip_address r) "unknown")
      (fill_null (device r) "unknown") (fill_null (location r) "unknown").
Proof.
  intros (_ & _ & _ & (ty & Hty & Hmem) & (st & Hst & Hmem') & _)%valid_row_fields.
  unfold clean_row. rewrite Hty, Hst.
  rewrite (upper_elem_type ty Hmem), (upper_elem_status st Hmem').
  reflexivity.
Qed.






(** ** The frame of a batch *)



(** ** Reading a JSON file *)

Lemma flatten_all (data : list JItem) :
  match flatten data with
  | Ok rows => Forall2 (λ item row, flatten_item item = Ok row) data rows
  | Raise _ => Exists (λ item, j_customer item = JNotObject
                               ∨ j_metadata item = JNotObject) data
  end.
Proof.
  induction data as [|item data IH]; simpl; [constructor|].
  destruct (flatten_item item) as [row|e] eqn:E.
  - destruct (flatten data) as [rows|e'].
    + by constructor.
    + by apply Exists_cons_tl.
  - apply Exists_cons_hd. unfold flatten_item, get_sub in E.
    destruct (j_customer item), (j_metadata item); try discriminate; auto.
Qed.

Lemma flatten_item_not_object (item : JItem) :
  j_customer item = JNotObject ∨ j_metadata item = JNotObject →
  ∃ e, flatten_item item = Raise e.
Proof.
  unfold flatten_item, get_sub.
  intros [-> | ->]; destruct (j_customer item), (j_metadata item); eauto.
Qed.

(** X5.  [read_json_file] is all or nothing.  If in one item of the file
    the value of "customer" or "metadata" is not an object, the whole file
    gives the empty frame; otherwise it gives one row for each item, in
    order, and an item without "customer" (or "metadata") gives a row whose
    customer (or metadata) columns are null. *)
Theorem read_json_file_all_or_nothing fs (file_path : string)
    (data : list JItem) :
  json_content fs file_path = Some data →
  (Exists (λ item, j_customer item = JNotObject
                   ∨ j_metadata item = JNotObject) data →
   read_json_file fs file_path = [])
  ∧ (Forall (λ item, j_customer item ≠ JNotObject
                     ∧ j_metadata item ≠ JNotObject) data →
     Forall2
       (λ item row,
          flatten_item item = Ok row
          ∧ transaction_id row = j_transaction_id item
          ∧ (j_customer item = JAbsent →
             customer_id row = None ∧ customer_name row = None
             ∧ customer_email row = None)
          ∧ (j_metadata item = JAbsent →
             ip_address row = None ∧ device row = None
             ∧ location row = None))
       data (read_json_file fs file_path)).
Proof.
  intros Hdata. unfold read_json_file. rewrite Hdata.
  pose proof (flatten_all data) as Hall. split.
  - intros Hbad. destruct (flatten data) as [rows|e]; [|done].
    exfalso. apply Exists_exists in Hbad as (item & Hitem & Hbad).
    apply list_elem_of_lookup in Hitem as [i Hi].
    destruct (Forall2_lookup_l _ _ _ _ _ Hall Hi) as (row & _ & Hrow).
    destruct (flatten_item_not_object item Hbad) as [e He]. congruence.
  - intros Hgood. destruct (flatten data) as [rows|e].
    + eapply Forall2_impl; [exact Hall|]. intros item row Hrow.
      split; [done|]. unfold flatten_item, get_sub in Hrow.
      destruct (j_customer item), (j_metadata item); simplify_eq;
        simpl; repeat split; intros; done.
    + exfalso. apply Exists_exists in Hall as (item & Hitem & Hbad).
      rewrite Forall_forall in Hgood. destruct (Hgood item Hitem).
      by destruct Hbad.
Qed.


Lemma read_json_file_all_or_nothing_witness :
  let item (c : JSub JCustomer) :=
    {| j_transaction_id := Some "t1"; j_amount := Some 5%Q;
       j_currency := Some "KES"; j_transaction_type := Some "PAYMENT";
       j_status := Some "COMPLETED"; j_date := Some "2024-01-05";
       j_customer := c; j_metadata := JAbsent |} in
  let data := [item JAbsent; item JNotObject] in
  let fs := {| csv_content := λ _, None; json_content := λ _, Some data |} in
  json_content fs "in/a.json" = Some data
  ∧ read_json_file fs "in/a.json" = [].
Proof.
  intros item data fs.
  assert (Hdata : json_content fs "in/a.json" = Some data) by reflexivity.
  split; [done|].
  apply (proj1 (read_json_file_all_or_nothing fs "in/a.json" data Hdata)).
  apply Exists_cons_tl, Exists_cons_hd. by left.
Defined.

(** ** More on [store_data] *)

(** X6.  [store_data] stores all the new rows or none: when the rows of
    the frame whose id is not in the table include a null id or the same id
    twice, it returns 0 and the table is as before. *)
Theorem store_data_all_or_nothing (tbl df : list Row) :
  let new_records :=
    filter (λ r, transaction_id r ∉ transaction_id <$> tbl) df in
  ¬ NoDup (transaction_id <$> new_records)
  ∨ ¬ Forall is_Some (transaction_id <$> new_records) →
  Db.store_data df (Db.healthy tbl) = (Ok 0%nat, Db.healthy tbl).
Proof.
  intros new_records Hbad. rewrite store_data_healthy. fold new_records.
  rewrite bool_decide_false; [done|].
  intros [Hnd Hsome]. rewrite fmap_app in Hnd, Hsome.
  apply NoDup_app in Hnd as (_ & _ & Hnd).
  apply Forall_app in Hsome as [_ Hsome].
  by destruct Hbad.
Qed.

Lemma store_data_all_or_nothing_witness :
  let r (i : option string) (a : Q) :=
    mkRow i (Some a) None None None None None None None None None None in
  let tbl := [r (Some "a") 1%Q] in
  let df := [r (Some "b") 2%Q; r None 3%Q] in
  (¬ NoDup (transaction_id
            <$> filter (λ x, transaction_id x ∉ transaction_id <$> tbl) df)
   ∨ ¬ Forall is_Some
         (transaction_id
          <$> filter (λ x, transaction_id x ∉ transaction_id <$> tbl) df))
  ∧ Db.store_data df (Db.healthy tbl) = (Ok 0%nat, Db.healthy tbl).
Proof.
  intros r tbl df.
  assert (Hbad :
    ¬ NoDup (transaction_id
             <$> filter (λ x, transaction_id x ∉ transaction_id <$> tbl) df)
    ∨ ¬ Forall is_Some
          (transaction_id
           <$> filter (λ x, transaction_id x ∉ transaction_id <$> tbl) df)).
  { right. apply (bool_decide_unpack _). vm_compute. exact I. }
  split; [done|].
  exact (store_data_all_or_nothing tbl df Hbad).
Defined.

Lemma store_data_known (tbl df : list Row) :
  (∀ r, r ∈ df → transaction_id r ∈ transaction_id <$> tbl) →
  Db.store_data df (Db.healthy tbl) = (Ok 0%nat, Db.healthy tbl).
Proof.
  intros Hknown. rewrite store_data_healthy.
  rewrite filter_none by (intros r Hr Hnot; by apply Hnot, Hknown).
  rewrite app_nil_r. by case_bool_decide.
Qed.

(** X7.  No overwrite, and a second [store_data] is a no-op.  A frame all
    of whose ids are in the table stores nothing, whatever its other
    columns hold; so after a frame with distinct non-null ids was stored,
    storing it (or any frame with ids among those now stored) again returns
    0 and leaves the table as it is. *)
Theorem store_data_twice (tbl df df2 : list Row) :
  Db.primary_key tbl →
  NoDup (transaction_id <$> df) →
  Forall is_Some (transaction_id <$> df) →
  (∀ r, r ∈ df2 →
        transaction_id r ∈ transaction_id <$> tbl
        ∨ transaction_id r ∈ transaction_id <$> df) →
  let after := (Db.store_data df (Db.healthy tbl)).2 in
  tbl `prefix_of` Db.table after
  ∧ Db.store_data df2 after = (Ok 0%nat, after).
Proof.
  intros Hpk Hnd Hsome Hids after. subst after.
  rewrite store_data_healthy.
  rewrite bool_decide_true by by apply new_records_key.
  simpl. split; [by apply prefix_app_r|].
  apply store_data_known. intros r Hr.
  destruct (Hids r Hr) as [Hin|Hin].
  - rewrite fmap_app, elem_of_app. by left.
  - by apply id_in_table_after.
Qed.

Lemma store_data_twice_witness :
  let r (i : string) (a : Q) :=
    mkRow (Some i) (Some a) None None None None None None None None None None in
  let tbl := [r "a" 1%Q] in
  let df := [r "a" 7%Q; r "b" 2%Q] in
  (Db.primary_key tbl
   ∧ NoDup (transaction_id <$> df)
   ∧ Forall is_Some (transaction_id <$> df))
  ∧ let after := (Db.store_data df (Db.healthy tbl)).2 in
    tbl `prefix_of` Db.table after
    ∧ Db.store_data df after = (Ok 0%nat, after).
Proof.
  intros r tbl df.
  assert (Hpk : Db.primary_key tbl).
  { apply (bool_decide_unpack _). vm_compute. exact I. }
  assert (Hnd : NoDup (transaction_id <$> df)).
  { apply (bool_decide_unpack _). vm_compute. exact I. }
  assert (Hsome : Forall is_Some (transaction_id <$> df)).
  { apply (bool_decide_unpack _). vm_compute. exact I. }
  split; [done|].
  apply (store_data_twice tbl df df Hpk Hnd Hsome).
  intros x Hx. right. apply list_elem_of_fmap. eauto.
Defined.

(** X8.  The number that [store_data] returns is not always the number of
    rows it stored: when the append succeeds and the count query after it
    fails, the new rows are in the table and the function returns 0. *)
Theorem store_data_count_failure (tbl df : list Row) (rest : list bool) :
  Db.primary_key tbl →
  NoDup (transaction_id <$> df) →
  Forall is_Some (transaction_id <$> df) →
  let new_records :=
    filter (λ r, transaction_id r ∉ transaction_id <$> tbl) df in
  new_records ≠ [] →
  Db.store_data df (Db.mkConn tbl (false :: false :: true :: rest))
  = (Ok 0%nat, Db.mkConn (tbl ++ new_records) rest).
Proof.
  intros Hpk Hnd Hsome new_records Hnew.
  pose proof (new_records_key tbl df Hpk Hnd Hsome) as Hkey.
  fold new_records in Hkey.
  unfold Db.store_data. destruct df as [|r df]; [done|].
  simpl is_empty. cbv iota.
  unfold Db.try_except, Db.bind, Db.execute, Db.append, Db.ret,
    Db.select_ids, Db.select_count. simpl.
  change (has_column "transaction_id") with true. simpl.
  fold new_records.
  destruct new_records as [|x new'] eqn:E; [done|]. simpl.
  by rewrite bool_decide_true.
Qed.

Lemma store_data_count_failure_witness :
  let r (i : string) :=
    mkRow (Some i) None None None None None None None None None None None in
  let tbl := [r "a"] in
  let df := [r "a"; r "b"] in
  (Db.primary_key tbl
   ∧ NoDup (transaction_id <$> df)
   ∧ Forall is_Some (transaction_id <$> df)
   ∧ filter (λ x, transaction_id x ∉ transaction_id <$> tbl) df ≠ [])
  ∧ Db.store_data df (Db.mkConn tbl [false; false; true])
    = (Ok 0%nat, Db.mkConn (tbl ++ [r "b"]) []).
Proof.
  intros r tbl df.
  assert (Hpk : Db.primary_key tbl).
  { apply (bool_decide_unpack _). vm_compute. exact I. }
  assert (Hnd : NoDup (transaction_id <$> df)).
  { apply (bool_decide_unpack _). vm_compute. exact I. }
  assert (Hsome : Forall is_Some (transaction_id <$> df)).
  { apply (bool_decide_unpack _). vm_compute. exact I. }
  assert (Hnew : filter (λ x, transaction_id x ∉ transaction_id <$> tbl) df
                 ≠ []).
  { vm_compute. discriminate. }
  split; [done|].
  exact (store_data_count_failure tbl df [] Hpk Hnd Hsome Hnew).
Defined.

(** ** Storing, then reading *)

(** X9.  What is stored can be read back.  After [store_data] put a frame
    with distinct non-null ids into a keyed table (no id being empty), the
    scan without date filter returns every row of the table, the old and
    the new, in ascending order of id, and the id of every row of the frame
    is among them. *)
Theorem store_then_scan (tbl df : list Row) (L : Z) :
  Db.primary_key tbl →
  NoDup (transaction_id <$> df) →
  Forall is_Some (transaction_id <$> df) →
  (∀ r, r ∈ tbl ++ df → transaction_id r ≠ Some "") →
  1 <= L →
  let after := (Db.store_data df (Db.healthy tbl)).2 in
  let full := Db.order_by_id (Db.table after) in
  (∀ fuel, (length (Db.table after) < fuel)%nat →
           Client.scan None None L fuel None after = Some full)
  ∧ full ≡ₚ Db.table after
  ∧ StronglySorted Client.id_lt full
  ∧ (∀ r, r ∈ tbl → r ∈ full)
  ∧ (∀ r, r ∈ df → transaction_id r ∈ transaction_id <$> full).
Proof.
  intros Hpk Hnd Hsome Hne HL after full. subst full after.
  rewrite store_data_healthy.
  pose proof (new_records_key tbl df Hpk Hnd Hsome) as Hkey.
  rewrite bool_decide_true by done. simpl.
  set (tbl' := tbl ++ filter (λ r, transaction_id r
                                   ∉ transaction_id <$> tbl) df) in *.
  assert (Hne' : ∀ r, r ∈ tbl' → transaction_id r ≠ Some "").
  { intros r [?|[_ ?]%list_elem_of_filter]%elem_of_app;
      apply Hne, elem_of_app; auto. }
  assert (Hfull : Db.matching None None None tbl' = Db.order_by_id tbl').
  { unfold Db.matching. f_equal. by apply filter_all. }
  assert (Hperm : Db.order_by_id tbl' ≡ₚ tbl') by apply order_by_id_perm.
  split; [|split; [done|split; [|split]]].
  - intros fuel Hfuel. rewrite <- Hfull.
    apply (scan_rest tbl' None None L Hkey Hne' HL fuel [] _ None);
      [done|by left|].
    rewrite Hfull, Hperm. done.
  - rewrite <- Hfull. by apply full_strictly_sorted.
  - intros r Hr. rewrite Hperm. apply elem_of_app. by left.
  - intros r Hr. rewrite Hperm. apply id_in_table_after.
    apply list_elem_of_fmap. eauto.
Qed.

Lemma store_then_scan_witness :
  let r (i : string) :=
    mkRow (Some i) None None None None None None None None None None None in
  let tbl := [r "b"] in
  let df := [r "c"; r "a"] in
  (Db.primary_key tbl
   ∧ NoDup (transaction_id <$> df)
   ∧ Forall is_Some (transaction_id <$> df)
   ∧ (∀ x, x ∈ tbl ++ df → transaction_id x ≠ Some "")
   ∧ 1 <= 2)
  ∧ let after := (Db.store_data df (Db.healthy tbl)).2 in
    let full := Db.order_by_id (Db.table after) in
    (∀ fuel, (length (Db.table after) < fuel)%nat →
             Client.scan None None 2 fuel None after = Some full)
    ∧ full ≡ₚ Db.table after
    ∧ StronglySorted Client.id_lt full
    ∧ (∀ x, x ∈ tbl → x ∈ full)
    ∧ (∀ x, x ∈ df → transaction_id x ∈ transaction_id <$> full).
Proof.
  intros r tbl df.
  assert (Hpk : Db.primary_key tbl).
  { apply (bool_decide_unpack _). vm_compute. exact I. }
  assert (Hnd : NoDup (transaction_id <$> df)).
  { apply (bool_decide_unpack _). vm_compute. exact I. }
  assert (Hsome : Forall is_Some (transaction_id <$> df)).
  { apply (bool_decide_unpack _). vm_compute. exact I. }
  assert (Hne : ∀ x, x ∈ tbl ++ df → transaction_id x ≠ Some "").
  { apply Forall_forall. apply (bool_decide_unpack _). vm_compute. exact I. }
  assert (HL : 1 <= 2) by lia.
  split; [done|].
  exact (store_then_scan tbl df 2 Hpk Hnd Hsome Hne HL).
Defined.

(** ** More on [get_transactions] *)

Lemma StronglySorted_take {A} (R : relation A) (n : nat) (l : list A) :
  StronglySorted R l → StronglySorted R (take n l).
Proof.
  intros Hl. rewrite <- (take_drop n l) in Hl.
  by apply StronglySorted_app_1_l in Hl.
Qed.

Lemma length_matching_le sd ed cur (tbl : list Row) :
  (length (Db.matching sd ed cur tbl)
   ≤ length (filter (λ r, Db.where_clause sd ed r = true) tbl))%nat.
Proof.
  unfold Db.matching. rewrite order_by_id_perm.
  erewrite (list_filter_iff _ (λ r, Db.cursor_clause cur r = true
                                    ∧ Db.where_clause sd ed r = true)).
  - rewrite <- list_filter_filter. apply length_filter.
  - intros r. rewrite andb_true_iff. tauto.
Qed.

(** X10.  A page is sound.  On a healthy connection to a keyed table and
    for a limit of at least 1, every returned record is a row of the table
    that satisfies the date filter and lies after the cursor (a cursor that
    is no stored id is a lower bound all the same); the records are in
    strictly ascending order of id, at most [limit] and at most [total];
    [prev_cursor] is the cursor given; and the connection is as before. *)
Theorem get_transactions_page_sound (tbl : list Row) sd ed cur (L : Z)
    records next prev (total : nat) (c' : Db.Conn) :
  Db.primary_key tbl →
  1 <= L →
  Db.get_transactions sd ed cur L (Db.healthy tbl)
  = (Ok (records, next, prev, total), c') →
  (∀ r, r ∈ records →
        r ∈ tbl ∧ Db.where_clause sd ed r = true
        ∧ Db.cursor_clause cur r = true)
  ∧ StronglySorted Client.id_lt records
  ∧ Py.len records <= L
  ∧ (length records ≤ total)%nat
  ∧ prev = (if Py.truthy cur then cur else None)
  ∧ c' = Db.healthy tbl.
Proof.
  intros Hpk HL Hget. rewrite get_transactions_healthy in Hget by lia.
  destruct (page_ok (take (Z.to_nat (L + 1)) (Db.matching sd ed cur tbl)) cur L
              (length (filter (λ r, Db.where_clause sd ed r = true) tbl)) HL)
    as (next' & Hpage & _).
  rewrite Hpage in Hget. simplify_eq. rewrite take_take.
  replace (Z.to_nat L `min` Z.to_nat (L + 1))%nat with (Z.to_nat L) by lia.
  split; [|split; [|split; [|split]]]; [| | | |done].
  - intros r Hr%subseteq_take. unfold Db.matching in Hr.
    rewrite order_by_id_perm in Hr.
    apply list_elem_of_filter in Hr as [Hr%andb_true_iff ?]. tauto.
  - apply StronglySorted_take. rewrite matching_cursor by done.
    apply StronglySorted_filter. by apply full_strictly_sorted.
  - unfold Py.len. rewrite length_take. lia.
  - rewrite length_take. pose proof (length_matching_le sd ed cur tbl). lia.
Qed.

Lemma get_transactions_page_sound_witness :
  let r (i d : string) :=
    mkRow (Some i) None None None None (Some d) None None None None None
      None in
  let tbl := [r "c" "2024-01-07"; r "a" "2024-01-05"; r "b" "2024-02-01"] in
  (Db.primary_key tbl ∧ 1 <= 5
   ∧ Db.get_transactions None (Some "2024-01-31") (Some "0") 5 (Db.healthy tbl)
     = (Ok ([r "a" "2024-01-05"; r "c" "2024-01-07"], None, Some "0", 2%nat),
        Db.healthy tbl))
  ∧ StronglySorted Client.id_lt [r "a" "2024-01-05"; r "c" "2024-01-07"].
Proof.
  intros r tbl.
  assert (Hpk : Db.primary_key tbl).
  { apply (bool_decide_unpack _). vm_compute. exact I. }
  assert (HL : 1 <= 5) by lia.
  assert (Hget :
    Db.get_transactions None (Some "2024-01-31") (Some "0") 5 (Db.healthy tbl)
    = (Ok ([r "a" "2024-01-05"; r "c" "2024-01-07"], None, Some "0", 2%nat),
       Db.healthy tbl)) by (vm_compute; reflexivity).
  split; [done|].
  exact (proj1 (proj2 (get_transactions_page_sound tbl None
                         (Some "2024-01-31") (Some "0") 5 _ _ _ _ _
                         Hpk HL Hget))).
Defined.

(** X11.  The limit 0, which the route refuses but the database method
    takes: the page is empty and, when a row matches, the next cursor is
    the id of the first matching row, so a caller that follows the cursor
    never sees that row. *)
Theorem get_transactions_limit_zero (tbl : list Row) sd ed cur
    (first : Row) (others : list Row) :
  Db.matching sd ed cur tbl = first :: others →
  Db.get_transactions sd ed cur 0 (Db.healthy tbl)
  = (Ok ([], transaction_id first,
         (if Py.truthy cur then cur else None),
         length (filter (λ r, Db.where_clause sd ed r = true) tbl)),
     Db.healthy tbl)
  ∧ (Py.truthy (transaction_id first) = true →
     first ∉ Db.matching sd ed (transaction_id first) tbl).
Proof.
  intros Hm. split.
  - rewrite get_transactions_healthy by lia. by rewrite Hm.
  - intros Htruthy Hin. unfold Db.matching in Hin.
    rewrite order_by_id_perm in Hin.
    apply list_elem_of_filter in Hin as [[_ Hc]%andb_true_iff _].
    unfold Db.cursor_clause in Hc.
    destruct (transaction_id first) as [i|]; [|done].
    rewrite Htruthy in Hc. simpl in Hc. rewrite ltb_negb_leb in Hc.
    apply negb_true_iff in Hc.
    assert (String.leb i i = true) as Hrefl; [|congruence].
    apply Is_true_true. apply (reflexivity (R:=String.le)).
Qed.

Lemma get_transactions_limit_zero_witness :
  let r (i : string) :=
    mkRow (Some i) None None None None None None None None None None None in
  let tbl := [r "b"; r "a"] in
  Db.matching None None None tbl = [r "a"; r "b"]
  ∧ Db.get_transactions None None None 0 (Db.healthy tbl)
    = (Ok ([], Some "a", None, 2%nat), Db.healthy tbl).
Proof.
  intros r tbl.
  assert (Hm : Db.matching None None None tbl = [r "a"; r "b"])
    by (vm_compute; reflexivity).
  split; [done|].
  exact (proj1 (get_transactions_limit_zero tbl None None None _ _ Hm)).
Defined.

(** X12.  An empty string counts as no value: a [start_date], an
    [end_date] or a [cursor] that is the empty string gives, in the
    database method and in the handler of the route, exactly the answer of
    the call without it; in particular the handler does not reject an empty
    date. *)
Theorem empty_string_parameters sd ed cur (L : Z) (c : Db.Conn) :
  Db.get_transactions (Some "") ed cur L c
  = Db.get_transactions None ed cur L c
  ∧ Db.get_transactions sd (Some "") cur L c
    = Db.get_transactions sd None cur L c
  ∧ Db.get_transactions sd ed (Some "") L c
    = Db.get_transactions sd ed None L c
  ∧ Api.get_transactions (Some "") ed cur L c
    = Api.get_transactions None ed cur L c
  ∧ Api.get_transactions sd (Some "") cur L c
    = Api.get_transactions sd None cur L c
  ∧ Api.get_transactions sd ed (Some "") L c
    = Api.get_transactions sd ed None L c.
Proof.
  repeat split; try reflexivity.
  all: unfold Api.get_transactions, Db.get_transactions, Db.count_query,
         Db.query, Db.matching, Db.where_clause, Db.cursor_clause, Db.page,
         Api.check_date_param; simpl; try reflexivity.
  all: by destruct sd.
Qed.

(** ** The handler of the route *)

Lemma upper_type (ty : string) : ty ∈ TransactionType → Py.upper ty = ty.
Proof.
  unfold TransactionType. rewrite !elem_of_cons, elem_of_nil.
  intros [->|[->|[->|[->|[->|[]]]]]]; reflexivity.
Qed.

Lemma upper_status (st : string) : st ∈ TransactionStatus → Py.upper st = st.
Proof.
  unfold TransactionStatus. rewrite !elem_of_cons, elem_of_nil.
  intros [->|[->|[->|[->|[]]]]]; reflexivity.
Qed.

Lemma TransactionResponse_valid (r : Row) :
  TransactionFlat_errors r = [] → TransactionResponse r = Ok r.
Proof.
  intros Hvalid.
  pose proof (valid_row_fields r Hvalid)
    as (_ & _ & _ & (ty & Hty & Hmem) & (st & Hst & Hmem') & _).
  unfold TransactionResponse, validate_enums. rewrite Hty, Hst. simpl.
  rewrite (upper_type ty Hmem), (upper_status st Hmem').
  destruct r; simpl in *; subst. by rewrite Hvalid.
Qed.

Lemma TransactionResponse_ok (r r' : Row) :
  TransactionResponse r = Ok r' →
  TransactionFlat_errors r' = []
  ∧ transaction_type r' = Py.upper <$> transaction_type r
  ∧ status r' = Py.upper <$> status r
  ∧ transaction_id r' = transaction_id r.
Proof.
  unfold TransactionResponse.
  destruct (TransactionFlat_errors _) eqn:E; [|done].
  intros [= <-]. by rewrite E.
Qed.

Lemma to_responses_spec (transactions : list Row) :
  (∀ r', r' ∈ Api.to_responses transactions →
         TransactionFlat_errors r' = []
         ∧ ∃ r, r ∈ transactions ∧ TransactionResponse r = Ok r')
  ∧ (length (Api.to_responses transactions) ≤ length transactions)%nat
  ∧ ((∀ r, r ∈ transactions → TransactionFlat_errors r = []) →
     Api.to_responses transactions = transactions).
Proof.
  induction transactions as [|t l (IH1 & IH2 & IH3)]; simpl.
  { split; [by intros ? ?%elem_of_nil|done]. }
  destruct (TransactionResponse t) as [resp|e] eqn:E.
  - split; [|split].
    + intros r' [->|Hr']%elem_of_cons.
      * split; [by apply TransactionResponse_ok in E as [? _]|].
        exists t. split; [left|done].
      * destruct (IH1 r' Hr') as (? & r & ? & ?). split; [done|].
        exists r. split; [by right|done].
    + simpl. lia.
    + intros Hall. rewrite TransactionResponse_valid in E by (apply Hall; left).
      simplify_eq. f_equal. apply IH3. intros r Hr. apply Hall. by right.
  - split; [|split].
    + intros r' Hr'. destruct (IH1 r' Hr') as (? & r & ? & ?).
      split; [done|]. exists r. split; [by right|done].
    + lia.
    + intros Hall. rewrite TransactionResponse_valid in E by (apply Hall; left).
      done.
Qed.

(** X13.  The only error of the handler is the status 500: whatever the
    parameters and whatever the engine does, the handler returns a response
    or raises an [HTTPException] with status 500 (never 400), and the table
    is as before. *)
Theorem handler_errors_are_500 sd ed cur (L : Z) (c : Db.Conn) :
  (∀ e, (Api.get_transactions sd ed cur L c).1 = Raise e →
        ∃ detail, e = HTTPException 500 detail)
  ∧ Db.table (Api.get_transactions sd ed cur L c).2 = Db.table c.
Proof.
  split.
  - unfold Api.get_transactions, Db.try_except, Db.raise.
    destruct (Db.bind _ _ c) as [[resp|e'] c']; simpl; [done|].
    intros e [= <-]. eauto.
  - symmetry. revert c. change (Db.table_rel eq (Api.get_transactions sd ed cur L)).
    unfold Api.get_transactions.
    apply table_rel_try_except; [apply _| |by intros e c].
    apply table_rel_bind; [apply _|apply table_rel_lift; apply _|]. intros _.
    apply table_rel_bind; [apply _|apply table_rel_lift; apply _|]. intros _.
    apply table_rel_bind; [apply _|apply get_transactions_reads|].
    intros [[[records next] prev] total]. apply table_rel_ret; apply _.
Qed.

(** X14.  The answer to a good request.  With dates that pass the check
    (or are absent), a limit of at least 1 and a healthy connection, the
    handler answers with the page of the database method: its cursors and
    total unchanged, its records converted.  Every row of the answer is a
    valid record, rows that fail the conversion are left out (the cursors
    are not adjusted), and when all rows of the table are valid the answer
    holds the records as they are stored. *)
Theorem handler_response (tbl : list Row) sd ed cur (L : Z) :
  1 <= L →
  Api.check_date_param "start_date" sd = Ok () →
  Api.check_date_param "end_date" ed = Ok () →
  ∃ records next prev total,
    Db.get_transactions sd ed cur L (Db.healthy tbl)
    = (Ok (records, next, prev, total), Db.healthy tbl)
    ∧ Api.get_transactions sd ed cur L (Db.healthy tbl)
      = (Ok {| Api.data := Api.to_responses records;
               Api.next_cursor := next;
               Api.prev_cursor := prev;
               Api.total := total |}, Db.healthy tbl)
    ∧ (∀ r, r ∈ Api.to_responses records → TransactionFlat r = Ok r)
    ∧ (length (Api.to_responses records) ≤ length records)%nat
    ∧ ((∀ r, r ∈ tbl → TransactionFlat_errors r = []) →
       Api.to_responses records = records).
Proof.
  intros HL Hsd Hed.
  assert (Hget := get_transactions_healthy tbl sd ed cur L).
  destruct (page_ok (take (Z.to_nat (L + 1)) (Db.matching sd ed cur tbl)) cur L
              (length (filter (λ r, Db.where_clause sd ed r = true) tbl)) HL)
    as (next & Hpage & _).
  rewrite Hpage in Hget. specialize (Hget ltac:(lia)).
  eexists _, next, _, _. split; [exact Hget|].
  destruct (to_responses_spec
              (take (Z.to_nat L)
                 (take (Z.to_nat (L + 1)) (Db.matching sd ed cur tbl))))
    as (Hvalid & Hlen & Hsame).
  split; [|split; [|split; [done|]]].
  - unfold Api.get_transactions, Db.try_except, Db.bind, Db.lift.
    rewrite Hsd, Hed, Hget. reflexivity.
  - intros r Hr. destruct (Hvalid r Hr) as [Hok _].
    unfold TransactionFlat. by rewrite Hok.
  - intros Hall. apply Hsame. intros r Hr%subseteq_take%subseteq_take.
    apply Hall. unfold Db.matching in Hr. rewrite order_by_id_perm in Hr.
    by apply list_elem_of_filter in Hr as [_ ?].
Qed.

Lemma handler_response_witness :
  let r (i ty : string) :=
    mkRow (Some i) (Some 5%Q) (Some "KES") (Some ty) (Some "COMPLETED")
      (Some "2024-01-05") (Some "c1") (Some "Ann") (Some "ann@example.com")
      None None None in
  let tbl := [r "a" "payment"; r "b" "bonus"] in
  (1 <= 10
   ∧ Api.check_date_param "start_date" (Some "2024-01-01") = Ok ()
   ∧ Api.check_date_param "end_date" None = Ok ())
  ∧ ∃ records next prev total,
      Db.get_transactions (Some "2024-01-01") None None 10 (Db.healthy tbl)
      = (Ok (records, next, prev, total), Db.healthy tbl)
      ∧ Api.get_transactions (Some "2024-01-01") None None 10 (Db.healthy tbl)
        = (Ok {| Api.data := Api.to_responses records;
                 Api.next_cursor := next;
                 Api.prev_cursor := prev;
                 Api.total := total |}, Db.healthy tbl)
      ∧ (∀ x, x ∈ Api.to_responses records → TransactionFlat x = Ok x)
      ∧ (length (Api.to_responses records) ≤ length records)%nat
      ∧ ((∀ x, x ∈ tbl → TransactionFlat_errors x = []) →
         Api.to_responses records = records).
Proof.
  intros r tbl.
  assert (HL : 1 <= 10) by lia.
  assert (Hsd : Api.check_date_param "start_date" (Some "2024-01-01") = Ok ())
    by reflexivity.
  assert (Hed : Api.check_date_param "end_date" None = Ok ()) by reflexivity.
  split; [done|].
  exact (handler_response tbl (Some "2024-01-01") None None 10 HL Hsd Hed).
Defined.

(** ** A run whose store fails *)

Lemma second_run_finds_nothing fs (U1 U2 : Unique) (files : list string)
    (tracker : gset string) :
  (process_multiple_files fs U2 files true
     (process_multiple_files fs U1 files true tracker).2).1 = [].
Proof.
  destruct (process_multiple_files_spec fs U1 files true tracker)
    as (Htr1 & _).
  destruct (process_multiple_files_spec fs U2 files true
              (process_multiple_files fs U1 files true tracker).2)
    as (_ & _ & Hfrom2 & _).
  destruct (process_multiple_files fs U2 files true _).1 as [|r out2] eqn:E;
    [done|].
  exfalso. destruct (Hfrom2 r) as (f & Hf & Hrf); [left|].
  apply list_elem_of_filter in Hf as [Hnot Hf].
  rewrite Htr1 in Hnot. apply not_elem_of_union in Hnot as [Hnot0 Hnot1].
  rewrite elem_of_list_to_set, !list_elem_of_filter in Hnot1.
  destruct (is_empty (process_file fs U1 f)) eqn:E1.
  - rewrite (process_file_is_empty fs U1 U2) in E1.
    destruct (process_file fs U2 f); [by apply elem_of_nil in Hrf|done].
  - by apply Hnot1.
Qed.

(** X15.  The files are registered before the rows are stored.  When the
    engine fails at the first call of [store_data], an incremental run
    leaves the table as it was and still registers the files that gave
    records; the next incremental run on the same files, with a working
    database, finds nothing to process and stores nothing: the records of
    those files are not retried. *)
Theorem failed_store_is_not_retried fs (U1 U2 : Unique) (files : list string)
    (tracker : gset string) (tbl : list Row) (rest : list bool) :
  let run1 :=
    Main.run_pipeline fs U1 files true (tracker, Db.mkConn tbl (true :: rest)) in
  let run2 :=
    Main.run_pipeline fs U2 files true (run1.2.1, Db.healthy tbl) in
  Db.table run1.2.2 = tbl
  ∧ (run1.1 = None ∨ run1.1 = Some 0%nat)
  ∧ (∀ f, f ∈ files → process_file fs U1 f ≠ [] → f ∈ run1.2.1)
  ∧ run2.1 = None
  ∧ run2.2.2 = Db.healthy tbl.
Proof.
  intros run1 run2.
  assert (Hrun1 : run1.2.1
                  = (process_multiple_files fs U1 files true tracker).2
                  ∧ Db.table run1.2.2 = tbl
                  ∧ (run1.1 = None ∨ run1.1 = Some 0%nat)).
  { subst run1. rewrite run_pipeline_unfold. cbv zeta.
    destruct (process_multiple_files fs U1 files true tracker).1
      as [|r out1] eqn:E; simpl; auto. }
  destruct Hrun1 as (Htr & Htbl & Hres).
  split; [done|]. split; [done|]. split.
  - intros f Hf Hne. rewrite Htr.
    destruct (process_multiple_files_spec fs U1 files true tracker)
      as (-> & _).
    destruct (decide (f ∈ tracker)); [by apply elem_of_union_l|].
    apply elem_of_union_r, elem_of_list_to_set, list_elem_of_filter.
    split; [by destruct (process_file fs U1 f)|].
    by apply list_elem_of_filter.
  - subst run2. rewrite run_pipeline_unfold, Htr. cbv zeta.
    by rewrite second_run_finds_nothing.
Qed.

(** ** Cleaning up old files *)

Section housekeeping.
Import Housekeeping.

Lemma insert_newest_first_perm (e : Entry) (l : list Entry) :
  insert_newest_first e l ≡ₚ e :: l.
Proof.
  induction l as [|x l IH]; simpl; [done|].
  destruct (mtime e <? mtime x); [|done].
  rewrite IH. apply Permutation_swap.
Qed.

Lemma sort_newest_first_perm (l : list Entry) : sort_newest_first l ≡ₚ l.
Proof.
  induction l as [|x l IH]; simpl; [done|].
  by rewrite insert_newest_first_perm, IH.
Qed.

Lemma insert_newest_first_sorted (e : Entry) (l : list Entry) :
  StronglySorted (λ x y, mtime y <= mtime x) l →
  StronglySorted (λ x y, mtime y <= mtime x) (insert_newest_first e l).
Proof.
  induction 1 as [|x l Hl IH Hx]; simpl.
  { repeat constructor. }
  destruct (Z.ltb_spec (mtime e) (mtime x)).
  - constructor; [done|].
    rewrite insert_newest_first_perm. constructor; [lia|done].
  - constructor; [by constructor|].
    constructor; [done|].
    eapply Forall_impl; [exact Hx|]. simpl. intros y ?. lia.
Qed.

Lemma sort_newest_first_sorted (l : list Entry) :
  StronglySorted (λ x y, mtime y <= mtime x) (sort_newest_first l).
Proof.
  induction l as [|x l IH]; simpl; [constructor|].
  by apply insert_newest_first_sorted.
Qed.

(** Removing a list of entries keeps the entries whose name is not the name
    of a removable one among them. *)
Lemma foldl_remove (old_files directory : list Entry) :
  foldl (λ d old_file, remove old_file d) directory old_files
  = filter (λ e, name e ∉ name <$> filter (λ o, removable o = true) old_files)
      directory.
Proof.
  revert directory.
  induction old_files as [|o old_files IH]; intros directory; simpl.
  { symmetry. apply filter_all. intros e _. apply not_elem_of_nil. }
  rewrite IH. unfold remove. rewrite filter_cons.
  destruct (removable o) eqn:E.
  - rewrite decide_True by done. rewrite list_filter_filter.
    apply list_filter_iff. intros e. rewrite fmap_cons, not_elem_of_cons.
    tauto.
  - rewrite decide_False by (by intros ?). done.
Qed.

Lemma cleanup_ext_filter (max_files_to_keep : Z) directory (ext : string) :
  0 <= max_files_to_keep →
  let files := sort_newest_first (glob_star ext directory) in
  let old_files := drop (Z.to_nat max_files_to_keep) files in
  cleanup_ext max_files_to_keep directory ext
  = filter (λ e, name e ∉ name <$> filter (λ o, removable o = true) old_files)
      directory.
Proof.
  intros Hmax files old_files. unfold cleanup_ext. fold files.
  destruct (Z.gtb_spec (Py.len files) max_files_to_keep) as [Hgt|Hle].
  - rewrite foldl_remove. unfold slice_from.
    destruct (Z.ltb_spec max_files_to_keep 0); [lia|done].
  - symmetry. apply filter_all. intros e _.
    subst old_files. rewrite drop_ge; [apply not_elem_of_nil|].
    unfold Py.len in Hle. lia.
Qed.

Lemma names_inj (directory : list Entry) (e1 e2 : Entry) :
  NoDup (name <$> directory) → e1 ∈ directory → e2 ∈ directory →
  name e1 = name e2 → e1 = e2.
Proof.
  induction directory as [|x l IH]; [by intros _ ?%elem_of_nil|].
  rewrite fmap_cons, NoDup_cons. intros [Hx Hnd] H1 H2 Heq.
  apply elem_of_cons in H1 as [->|H1]; apply elem_of_cons in H2 as [->|H2].
  - done.
  - exfalso. apply Hx. rewrite Heq. apply list_elem_of_fmap; eauto.
  - exfalso. apply Hx. rewrite <- Heq. apply list_elem_of_fmap; eauto.
  - by apply IH.
Qed.

Lemma names_NoDup_sublist (l k : list Entry) :
  l `sublist_of` k → NoDup (name <$> k) → NoDup (name <$> l).
Proof. intros Hs Hnd. eapply sublist_NoDup; [exact Hnd|]. by apply fmap_sublist. Qed.

Lemma glob_star_elem (ext : string) (directory : list Entry) (e : Entry) :
  e ∈ glob_star ext directory
  ↔ e ∈ directory
    ∧ endswith (name e) ext && negb (String.prefix "." (name e)) = true.
Proof. unfold glob_star. rewrite list_elem_of_filter. tauto. Qed.

(** One extension: what stays and what goes. *)
Lemma cleanup_ext_spec (max_files_to_keep : Z) directory (ext : string) :
  0 <= max_files_to_keep →
  NoDup (name <$> directory) →
  let result := cleanup_ext max_files_to_keep directory ext in
  let files := sort_newest_first (glob_star ext directory) in
  result `sublist_of` directory
  ∧ (∀ e, e ∈ directory →
          e ∈ result
          ∨ (e ∈ drop (Z.to_nat max_files_to_keep) files
             ∧ removable e = true))
  ∧ (∀ e, e ∈ glob_star ext result → removable e = true →
          e ∈ take (Z.to_nat max_files_to_keep) files).
Proof.
  intros Hmax Hnd result files. subst result.
  rewrite cleanup_ext_filter by done. fold files.
  set (old := filter (λ o, removable o = true)
                (drop (Z.to_nat max_files_to_keep) files)).
  assert (Hfiles : ∀ e, e ∈ files ↔ e ∈ glob_star ext directory).
  { intros e. subst files. by rewrite sort_newest_first_perm. }
  assert (Hold : ∀ o, o ∈ old →
            o ∈ drop (Z.to_nat max_files_to_keep) files
            ∧ removable o = true ∧ o ∈ directory).
  { intros o [Hr Ho]%list_elem_of_filter. split; [done|]. split; [done|].
    apply subseteq_drop, Hfiles, glob_star_elem in Ho. tauto. }
  split; [apply sublist_filter|]. split.
  - intros e He.
    destruct (decide (name e ∈ name <$> old)) as [Hin|Hnot].
    + right. apply list_elem_of_fmap in Hin as (o & Hname & Ho).
      destruct (Hold o Ho) as (Hdrop & Hrem & Hdir).
      assert (e = o) as -> by by apply (names_inj directory).
      done.
    + left. by apply list_elem_of_filter.
  - intros e [[Hnot He]%list_elem_of_filter Hpat]%glob_star_elem Hrem.
    assert (Hin : e ∈ files) by (apply Hfiles, glob_star_elem; done).
    rewrite <- (take_drop (Z.to_nat max_files_to_keep) files) in Hin.
    apply elem_of_app in Hin as [?|Hdrop]; [done|].
    exfalso. apply Hnot. apply list_elem_of_fmap. exists e. split; [done|].
    by apply list_elem_of_filter.
Qed.

Lemma length_le_of_NoDup_subset (l k : list Entry) :
  NoDup l → (∀ e, e ∈ l → e ∈ k) → (length l ≤ length k)%nat.
Proof. intros Hnd Hsub. by apply submseteq_length, NoDup_submseteq. Qed.

Lemma glob_star_sublist (ext : string) (l k : list Entry) :
  l `sublist_of` k →
  filter (λ e, removable e = true) (glob_star ext l)
  `sublist_of` filter (λ e, removable e = true) (glob_star ext k).
Proof.
  intros Hs. unfold glob_star.
  induction Hs as [|x l k Hs IH|x l k Hs IH]; [done| |].
  - rewrite !(filter_cons _ x). destruct (decide _); [|done].
    rewrite !(filter_cons _ x). destruct (decide _); [by constructor|done].
  - rewrite (filter_cons _ x k). destruct (decide _); [|done].
    rewrite (filter_cons _ x). destruct (decide _); [by constructor|done].
Qed.

(** X16.  [cleanup_old_files] only removes, and only old files of the
    given extensions.  For a directory (names pairwise distinct) and a
    bound of at least 0: the entries left are entries of the directory, in
    their order; an entry whose name matches none of the patterns, or that
    cannot be removed, is left; and for each extension at most
    [max_files_to_keep] removable entries that match it are left. *)
Theorem cleanup_old_files_keeps_at_most (directory : list Entry)
    (max_files_to_keep : Z) (extensions : option (list string)) :
  0 <= max_files_to_keep →
  NoDup (name <$> directory) →
  Forall literal_ext (default [".csv"; ".json"] extensions) →
  let exts := default [".csv"; ".json"] extensions in
  let result := cleanup_old_files directory max_files_to_keep extensions in
  result `sublist_of` directory
  ∧ (∀ e, e ∈ directory →
          (∀ ext, ext ∈ exts → e ∉ glob_star ext directory)
          ∨ removable e = false →
          e ∈ result)
  ∧ (∀ ext, ext ∈ exts →
       (length (filter (λ e, removable e = true) (glob_star ext result))
        ≤ Z.to_nat max_files_to_keep)%nat).
Proof.
  intros Hmax Hnd _ exts result. subst result. unfold cleanup_old_files.
  change (match extensions with
          | Some exts0 => exts0
          | None => [".csv"; ".json"]
          end) with exts.
  clearbody exts. clear extensions.
  induction exts as [|ext exts IH] using rev_ind; simpl.
  { split; [done|]. split; [done|]. by intros ? ?%elem_of_nil. }
  destruct IH as (Hsub & Hkeep & Hcount).
  rewrite foldl_app. simpl.
  set (d := foldl (cleanup_ext max_files_to_keep) directory exts) in *.
  assert (Hnd' : NoDup (name <$> d)) by by eapply names_NoDup_sublist.
  destruct (cleanup_ext_spec max_files_to_keep d ext Hmax Hnd')
    as (Hsub' & Hgone & Htake).
  split; [by etrans|]. split.
  - intros e He Hcond.
    assert (Hd : e ∈ d).
    { apply Hkeep; [done|]. destruct Hcond as [Hnone|?]; [left|by right].
      intros x Hx. apply Hnone, elem_of_app. by left. }
    destruct (Hgone e Hd) as [?|[Hdrop Hrem]]; [done|].
    exfalso. destruct Hcond as [Hnone|Hfalse]; [|congruence].
    apply subseteq_drop in Hdrop.
    rewrite sort_newest_first_perm in Hdrop.
    apply glob_star_elem in Hdrop as [_ Hpat].
    apply (Hnone ext); [apply elem_of_app; right; by left|].
    by apply glob_star_elem.
  - intros x [Hx|Hx%list_elem_of_singleton]%elem_of_app.
    + etrans; [|exact (Hcount x Hx)].
      by apply sublist_length, glob_star_sublist.
    + subst x.
      assert (Hle : (length (take (Z.to_nat max_files_to_keep)
                               (sort_newest_first (glob_star ext d)))
                     ≤ Z.to_nat max_files_to_keep)%nat).
      { rewrite length_take. lia. }
      etrans; [|exact Hle].
      apply length_le_of_NoDup_subset.
      * eapply (NoDup_fmap_1 name), sublist_NoDup;
          [eapply names_NoDup_sublist; [exact Hsub'|exact Hnd']|].
        apply fmap_sublist. etrans; [apply sublist_filter|].
        apply sublist_filter.
      * intros e [Hrem He]%list_elem_of_filter. by apply Htake.
Qed.
Lemma cleanup_old_files_keeps_at_most_witness :
  let directory :=
    [mkEntry "a.csv" 5 true; mkEntry "b.csv" 9 true; mkEntry "notes.txt" 1 true;
     mkEntry "c.csv" 7 true] in
  (0 <= 2 ∧ NoDup (name <$> directory)
   ∧ Forall literal_ext [".csv"; ".json"])
  ∧ (cleanup_old_files directory 2 None `sublist_of` directory)
  ∧ (length (filter (λ e, removable e = true)
               (glob_star ".csv" (cleanup_old_files directory 2 None)))
     ≤ Z.to_nat 2)%nat.
Proof.
  intros directory.
  assert (Hmax : 0 <= 2) by lia.
  assert (Hnd : NoDup (name <$> directory)).
  { apply (bool_decide_unpack _). vm_compute. exact I. }
  assert (Hlit : Forall literal_ext [".csv"; ".json"]).
  { apply (bool_decide_unpack _). vm_compute. exact I. }
  split; [done|].
  destruct (cleanup_old_files_keeps_at_most directory 2 None Hmax Hnd Hlit)
    as (Hsub & _ & Hcount).
  split; [exact Hsub|]. apply Hcount. by left.
Defined.

(** X17.  The newest files are the ones kept.  When [cleanup_old_files]
    runs for one extension (directory names pairwise distinct, bound at
    least 0), an entry that it removes matches the pattern, is removable
    and is no newer than any removable matching entry that it leaves. *)
Theorem cleanup_old_files_keeps_newest (directory : list Entry)
    (max_files_to_keep : Z) (ext : string) (gone kept : Entry) :
  0 <= max_files_to_keep →
  NoDup (name <$> directory) →
  literal_ext ext →
  let result := cleanup_old_files directory max_files_to_keep (Some [ext]) in
  gone ∈ directory → gone ∉ result →
  kept ∈ glob_star ext result → removable kept = true →
  gone ∈ glob_star ext directory
  ∧ removable gone = true
  ∧ mtime gone <= mtime kept.
Proof.
  intros Hmax Hnd _ result Hgone Hnot Hkept Hrem. subst result.
  change (cleanup_old_files directory max_files_to_keep (Some [ext]))
    with (cleanup_ext max_files_to_keep directory ext) in *.
  destruct (cleanup_ext_spec max_files_to_keep directory ext Hmax Hnd)
    as (_ & Hout & Htake).
  destruct (Hout gone Hgone) as [?|[Hdrop Hrem']]; [done|].
  specialize (Htake kept Hkept Hrem).
  split; [|split; [done|]].
  - apply subseteq_drop in Hdrop. by rewrite sort_newest_first_perm in Hdrop.
  - pose proof (sort_newest_first_sorted (glob_star ext directory)) as Hsorted.
    rewrite <- (take_drop (Z.to_nat max_files_to_keep)) in Hsorted.
    by apply (StronglySorted_app_1_elem_of _ _ _ kept gone) in Hsorted.
Qed.

Lemma cleanup_old_files_keeps_newest_witness :
  let directory :=
    [mkEntry "a.csv" 5 true; mkEntry "b.csv" 9 true; mkEntry "c.csv" 7 true] in
  let gone := mkEntry "a.csv" 5 true in
  let kept := mkEntry "c.csv" 7 true in
  (0 <= 2 ∧ NoDup (name <$> directory)
   ∧ literal_ext ".csv"
   ∧ gone ∈ directory
   ∧ (gone ∉ cleanup_old_files directory 2 (Some [".csv"]))
   ∧ kept ∈ glob_star ".csv" (cleanup_old_files directory 2 (Some [".csv"]))
   ∧ removable kept = true)
  ∧ gone ∈ glob_star ".csv" directory
  ∧ removable gone = true
  ∧ mtime gone <= mtime kept.
Proof.
  intros directory gone kept.
  assert (Hmax : 0 <= 2) by lia.
  assert (Hnd : NoDup (name <$> directory)).
  { apply (bool_decide_unpack _). vm_compute. exact I. }
  assert (Hgone : gone ∈ directory) by (vm_compute; constructor).
  assert (Hnot : gone ∉ cleanup_old_files directory 2 (Some [".csv"])).
  { vm_compute. intros H. inversion H as [|? ? ? H']; subst.
    inversion H' as [|? ? ? H'']; subst. inversion H''. }
  assert (Hkept : kept ∈ glob_star ".csv"
                           (cleanup_old_files directory 2 (Some [".csv"]))).
  { vm_compute. constructor. constructor. }
  assert (Hrem : removable kept = true) by reflexivity.
  assert (Hlit : literal_ext ".csv").
  { apply (bool_decide_unpack _). vm_compute. exact I. }
  split; [done|].
  exact (cleanup_old_files_keeps_newest directory 2 ".csv" gone kept
           Hmax Hnd Hlit Hgone Hnot Hkept Hrem).
Defined.
End housekeeping.

(** ** Dates in the form YYYY-MM-DD *)

Section dates.
Import Generator.

Ltac digit_cases k :=
  let H := fresh in
  assert (k = 0 ∨ k = 1 ∨ k = 2 ∨ k = 3 ∨ k = 4 ∨ k = 5 ∨ k = 6 ∨ k = 7
          ∨ k = 8 ∨ k = 9) as H by lia;
  destruct H as [->|[->|[->|[->|[->|[->|[->|[->|[->| ->]]]]]]]]].

Lemma digit_char_facts (k : Z) :
  0 <= k <= 9 →
  Py.is_digit (digit_char k) = true
  ∧ Py.digit_val (digit_char k) = k
  ∧ Ascii.eqb (digit_char k) "-" = false.
Proof. intros Hk. digit_cases k; done. Qed.

Lemma digit_char_compare (a b : Z) :
  0 <= a <= 9 → 0 <= b <= 9 →
  Ascii.compare (digit_char a) (digit_char b) = (a ?= b).
Proof. intros Ha Hb. digit_cases a; digit_cases b; reflexivity. Qed.

Lemma two_digits_table :
  forallb (λ n, match Py.int (two_digits n) with
                | Some v => v =? n
                | None => false
                end) (Z.of_nat <$> seq 0 100) = true.
Proof. vm_compute. reflexivity. Qed.

Lemma four_digits_table :
  forallb (λ n, match Py.int (four_digits n) with
                | Some v => v =? n
                | None => false
                end) (Z.of_nat <$> seq 0 (100 * 100)) = true.
Proof. vm_compute. reflexivity. Qed.

Lemma int_two_digits (n : Z) : 0 <= n <= 99 → Py.int (two_digits n) = Some n.
Proof.
  intros Hn. pose proof two_digits_table as Ht.
  rewrite forallb_forall in Ht. specialize (Ht n).
  destruct (Py.int (two_digits n)) as [v|].
  - f_equal. apply Z.eqb_eq, Ht. apply in_map_iff.
    exists (Z.to_nat n). split; [lia|]. apply in_seq. lia.
  - exfalso. assert (false = true); [|done]. apply Ht. apply in_map_iff.
    exists (Z.to_nat n). split; [lia|]. apply in_seq. lia.
Qed.

Lemma int_four_digits (n : Z) :
  0 <= n <= 9999 → Py.int (four_digits n) = Some n.
Proof.
  intros Hn. pose proof four_digits_table as Ht.
  rewrite forallb_forall in Ht. specialize (Ht n).
  destruct (Py.int (four_digits n)) as [v|].
  - f_equal. apply Z.eqb_eq, Ht. apply in_map_iff.
    exists (Z.to_nat n). split; [lia|]. apply in_seq. lia.
  - exfalso. assert (false = true); [|done]. apply Ht. apply in_map_iff.
    exists (Z.to_nat n). split; [lia|]. apply in_seq. lia.
Qed.

Lemma date_ok_bounds (y m d : Z) :
  Py.date_ok y m d = true → 1 <= y <= 9999 ∧ 1 <= m <= 12 ∧ 1 <= d <= 31.
Proof.
  unfold Py.date_ok, Py.days_in_month. intros Hok.
  repeat (apply andb_true_iff in Hok as [Hok ?]).
  repeat case_match; lia.
Qed.

Lemma split_strftime (y m d : Z) :
  0 <= y <= 9999 → 0 <= m <= 99 → 0 <= d <= 99 →
  Py.split "-" (strftime_ymd y m d)
  = [four_digits y; two_digits m; two_digits d].
Proof.
  intros Hy Hm Hd. unfold strftime_ymd, four_digits, two_digits.
  cbv [String.append]. cbn [Py.split].
  destruct (digit_char_facts (y / 100 / 10)) as (_ & _ & ->);
    [Z.div_mod_to_equations; lia|].
  destruct (digit_char_facts (y / 100 mod 10)) as (_ & _ & ->);
    [Z.div_mod_to_equations; lia|].
  destruct (digit_char_facts (y mod 100 / 10)) as (_ & _ & ->);
    [Z.div_mod_to_equations; lia|].
  destruct (digit_char_facts (y mod 100 mod 10)) as (_ & _ & ->);
    [Z.div_mod_to_equations; lia|].
  destruct (digit_char_facts (m / 10)) as (_ & _ & ->);
    [Z.div_mod_to_equations; lia|].
  destruct (digit_char_facts (m mod 10)) as (_ & _ & ->);
    [Z.div_mod_to_equations; lia|].
  destruct (digit_char_facts (d / 10)) as (_ & _ & ->);
    [Z.div_mod_to_equations; lia|].
  destruct (digit_char_facts (d mod 10)) as (_ & _ & ->);
    [Z.div_mod_to_equations; lia|].
  reflexivity.
Qed.

Lemma validate_strftime (y m d : Z) :
  Py.date_ok y m d = true →
  validate_date_format (strftime_ymd y m d) = Ok (strftime_ymd y m d).
Proof.
  intros Hok. destruct (date_ok_bounds y m d Hok) as (Hy & Hm & Hd).
  unfold validate_date_format.
  rewrite split_strftime by lia. simpl fmap.
  rewrite int_four_digits, !int_two_digits by lia.
  by rewrite Hok.
Qed.

Lemma strptime_strftime (y m d : Z) :
  Py.date_ok y m d = true →
  Api.strptime_ymd (strftime_ymd y m d) = Ok (y, m, d).
Proof.
  intros Hok. destruct (date_ok_bounds y m d Hok) as (Hy & Hm & Hd).
  unfold Api.strptime_ymd, strftime_ymd, four_digits, two_digits.
  cbv [String.append]. unfold Api.directive_Y.
  destruct (digit_char_facts (y / 100 / 10)) as (-> & -> & _);
    [Z.div_mod_to_equations; lia|].
  destruct (digit_char_facts (y / 100 mod 10)) as (-> & -> & _);
    [Z.div_mod_to_equations; lia|].
  destruct (digit_char_facts (y mod 100 / 10)) as (-> & -> & _);
    [Z.div_mod_to_equations; lia|].
  destruct (digit_char_facts (y mod 100 mod 10)) as (-> & -> & _);
    [Z.div_mod_to_equations; lia|].
  match goal with
  | |- context [(?v, String "-" ?t)] =>
      replace v with y by (Z.div_mod_to_equations; lia)
  end.
  cbn [andb mbind list_bind].
  assert (Hm' : m = 1 ∨ m = 2 ∨ m = 3 ∨ m = 4 ∨ m = 5 ∨ m = 6 ∨ m = 7
                ∨ m = 8 ∨ m = 9 ∨ m = 10 ∨ m = 11 ∨ m = 12) by lia.
  assert (Hd' : (d = 1 ∨ d = 2 ∨ d = 3 ∨ d = 4 ∨ d = 5 ∨ d = 6 ∨ d = 7
                 ∨ d = 8 ∨ d = 9 ∨ d = 10)
                ∨ (d = 11 ∨ d = 12 ∨ d = 13 ∨ d = 14 ∨ d = 15 ∨ d = 16
                   ∨ d = 17 ∨ d = 18 ∨ d = 19 ∨ d = 20)
                ∨ (d = 21 ∨ d = 22 ∨ d = 23 ∨ d = 24 ∨ d = 25 ∨ d = 26
                   ∨ d = 27 ∨ d = 28 ∨ d = 29 ∨ d = 30 ∨ d = 31)) by lia.
  clear Hm Hd.
  repeat (destruct Hm' as [->|Hm']); try subst m;
    repeat (destruct Hd' as [Hd'|Hd']);
    repeat (destruct Hd' as [->|Hd']); try subst d;
    cbv -[Py.date_ok]; by rewrite Hok.
Qed.

(** X18.  A real day written in the form YYYY-MM-DD passes both date
    checks: the validator of the record model accepts the string, the
    [strptime] of the route reads the same day back, and the date check of
    the route lets it through. *)
Theorem formatted_date_is_accepted (y m d : Z) (field : string) :
  Py.date_ok y m d = true →
  validate_date_format (strftime_ymd y m d) = Ok (strftime_ymd y m d)
  ∧ Api.strptime_ymd (strftime_ymd y m d) = Ok (y, m, d)
  ∧ Api.check_date_param field (Some (strftime_ymd y m d)) = Ok ().
Proof.
  intros Hok. split; [by apply validate_strftime|].
  split; [by apply strptime_strftime|].
  unfold Api.check_date_param.
  assert (Py.truthy (Some (strftime_ymd y m d)) = true) as -> by done.
  by rewrite strptime_strftime.
Qed.

Lemma formatted_date_is_accepted_witness :
  Py.date_ok 2024 2 29 = true
  ∧ validate_date_format (strftime_ymd 2024 2 29) = Ok "2024-02-29"
  ∧ Api.strptime_ymd "2024-02-29" = Ok (2024, 2, 29).
Proof.
  assert (Hok : Py.date_ok 2024 2 29 = true) by reflexivity.
  split; [done|].
  destruct (formatted_date_is_accepted 2024 2 29 "start_date" Hok)
    as (Hv & Hp & _).
  split; [exact Hv|exact Hp].
Defined.
Lemma lex_compare (B a1 a0 b1 b0 : Z) (K : comparison) :
  0 <= a0 < B → 0 <= b0 < B →
  match a1 ?= b1 with
  | Eq => match a0 ?= b0 with Eq => K | Lt => Lt | Gt => Gt end
  | Lt => Lt
  | Gt => Gt
  end
  = match B * a1 + a0 ?= B * b1 + b0 with Eq => K | Lt => Lt | Gt => Gt end.
Proof.
  intros Ha Hb.
  destruct (Z.compare_spec a1 b1) as [->|Hlt|Hgt].
  - destruct (Z.compare_spec a0 b0) as [->|Hlt|Hgt].
    + by rewrite Z.compare_refl.
    + by rewrite (proj2 (Z.compare_lt_iff _ _)) by lia.
    + by rewrite (proj2 (Z.compare_gt_iff _ _)) by lia.
  - by rewrite (proj2 (Z.compare_lt_iff _ _)) by nia.
  - by rewrite (proj2 (Z.compare_gt_iff _ _)) by nia.
Qed.

Lemma two_digits_value (n : Z) : 10 * (n / 10) + n mod 10 = n.
Proof. Z.div_mod_to_equations; lia. Qed.

(** Comparing two formatted days as strings is comparing the years, then
    the months, then the days. *)
Lemma compare_strftime (y1 m1 d1 y2 m2 d2 : Z) :
  0 <= y1 <= 9999 → 0 <= m1 <= 99 → 0 <= d1 <= 99 →
  0 <= y2 <= 9999 → 0 <= m2 <= 99 → 0 <= d2 <= 99 →
  String.compare (strftime_ymd y1 m1 d1) (strftime_ymd y2 m2 d2)
  = match y1 ?= y2 with
    | Eq => match m1 ?= m2 with
            | Eq => d1 ?= d2
            | Lt => Lt
            | Gt => Gt
            end
    | Lt => Lt
    | Gt => Gt
    end.
Proof.
  intros Hy1 Hm1 Hd1 Hy2 Hm2 Hd2.
  unfold strftime_ymd, four_digits, two_digits.
  cbv [String.append]. cbn [String.compare].
  rewrite !digit_char_compare by (Z.div_mod_to_equations; lia).
  change (Ascii.compare "-" "-") with Eq. cbv iota.
  rewrite (lex_compare 10 (d1 / 10) (d1 mod 10) (d2 / 10) (d2 mod 10) Eq)
    by (Z.div_mod_to_equations; lia).
  rewrite !two_digits_value.
  replace (match d1 ?= d2 with Eq => Eq | Lt => Lt | Gt => Gt end)
    with (d1 ?= d2) by (by destruct (d1 ?= d2)).
  rewrite (lex_compare 10 (m1 / 10) (m1 mod 10) (m2 / 10) (m2 mod 10))
    by (Z.div_mod_to_equations; lia).
  rewrite !two_digits_value.
  rewrite (lex_compare 10 (y1 mod 100 / 10) (y1 mod 100 mod 10)
             (y2 mod 100 / 10) (y2 mod 100 mod 10))
    by (Z.div_mod_to_equations; lia).
  rewrite !two_digits_value.
  rewrite (lex_compare 10 (y1 / 100 / 10) (y1 / 100 mod 10)
             (y2 / 100 / 10) (y2 / 100 mod 10)
             (match y1 mod 100 ?= y2 mod 100 with
              | Eq => match m1 ?= m2 with
                      | Eq => d1 ?= d2 | Lt => Lt | Gt => Gt end
              | Lt => Lt | Gt => Gt end)).
  2-3: Z.div_mod_to_equations; lia.
  rewrite !two_digits_value.
  rewrite (lex_compare 100 (y1 / 100) (y1 mod 100) (y2 / 100) (y2 mod 100))
    by (Z.div_mod_to_equations; lia).
  replace (100 * (y1 / 100) + y1 mod 100) with y1
    by (Z.div_mod_to_equations; lia).
  replace (100 * (y2 / 100) + y2 mod 100) with y2
    by (Z.div_mod_to_equations; lia).
  reflexivity.
Qed.

Lemma leb_strftime (y1 m1 d1 y2 m2 d2 : Z) :
  Py.date_ok y1 m1 d1 = true → Py.date_ok y2 m2 d2 = true →
  String.leb (strftime_ymd y1 m1 d1) (strftime_ymd y2 m2 d2) = true
  ↔ date_le (y1, m1, d1) (y2, m2, d2).
Proof.
  intros (? & ? & ?)%date_ok_bounds (? & ? & ?)%date_ok_bounds.
  unfold String.leb, date_le. rewrite compare_strftime by lia.
  destruct (Z.compare_spec y1 y2); [|split; [lia|done]|split; [done|lia]].
  destruct (Z.compare_spec m1 m2); [|split; [lia|done]|split; [done|lia]].
  destruct (Z.compare_spec d1 d2); split; (done || lia).
Qed.

Lemma truthy_strftime (y m d : Z) :
  Py.truthy (Some (strftime_ymd y m d)) = true.
Proof. reflexivity. Qed.

(** X19.  For dates in the form YYYY-MM-DD the date filter of the store is
    the calendar.  When the date of a row and the two bounds of a query
    are real days written in that form, the row satisfies the WHERE clause
    of [get_transactions] exactly when its day is not before the start day
    and not after the end day. *)
Theorem where_clause_is_calendar (r : Row) (day lo hi : Z * Z * Z) :
  let ok (x : Z * Z * Z) := let '(y, m, d) := x in Py.date_ok y m d = true in
  let fmt (x : Z * Z * Z) := let '(y, m, d) := x in strftime_ymd y m d in
  ok day → ok lo → ok hi →
  date r = Some (fmt day) →
  Db.where_clause (Some (fmt lo)) (Some (fmt hi)) r = true
  ↔ date_le lo day ∧ date_le day hi.
Proof.
  destruct day as [[y m] d], lo as [[y1 m1] d1], hi as [[y2 m2] d2].
  intros ok fmt Hday Hlo Hhi Hr. subst ok fmt. cbv beta iota in *.
  unfold Db.where_clause, Db.sql_ge, Db.sql_le.
  rewrite Hr, !truthy_strftime, andb_true_iff.
  by rewrite (leb_strftime y1 m1 d1 y m d Hlo Hday),
       (leb_strftime y m d y2 m2 d2 Hday Hhi).
Qed.

Lemma where_clause_is_calendar_witness :
  let r :=
    mkRow (Some "t1") None None None None (Some "2024-01-05") None None None
      None None None in
  (Py.date_ok 2024 1 5 = true ∧ Py.date_ok 2023 12 31 = true
   ∧ Py.date_ok 2024 1 31 = true ∧ date r = Some "2024-01-05")
  ∧ (Db.where_clause (Some "2023-12-31") (Some "2024-01-31") r = true
     ↔ date_le (2023, 12, 31) (2024, 1, 5) ∧ date_le (2024, 1, 5) (2024, 1, 31)).
Proof.
  intros r.
  assert (H1 : Py.date_ok 2024 1 5 = true) by reflexivity.
  assert (H2 : Py.date_ok 2023 12 31 = true) by reflexivity.
  assert (H3 : Py.date_ok 2024 1 31 = true) by reflexivity.
  assert (H4 : date r = Some "2024-01-05") by reflexivity.
  split; [done|].
  exact (where_clause_is_calendar r (2024, 1, 5) (2023, 12, 31) (2024, 1, 31)
           H1 H2 H3 H4).
Defined.
End dates.

(** ** The sample files *)

Section generator.
Import Generator.

Lemma choice_type (pick : nat) :
  (pick < length transaction_types)%nat →
  choice transaction_types pick ∈ TransactionType.
Proof.
  intros Hp. do 5 (destruct pick as [|pick]; [set_solver|]).
  simpl in Hp. lia.
Qed.

Lemma choice_status (pick : nat) :
  (pick < length statuses)%nat →
  choice statuses pick ∈ TransactionStatus.
Proof.
  intros Hp. do 4 (destruct pick as [|pick]; [set_solver|]).
  simpl in Hp. lia.
Qed.

Lemma flat_record_valid (dr : Draws) :
  in_range dr → TransactionFlat_errors (flat_record dr) = [].
Proof.
  intros (Hlo & _ & Hty & Hst & Hdate & _).
  assert (Ha : check_amount (amount (flat_record dr)) = []).
  { change (amount (flat_record dr)) with (Some (amount_drawn dr)).
    unfold check_amount. unfold Qle in Hlo. simpl in Hlo.
    destruct (Z.ltb_spec 0 (Qnum (amount_drawn dr))); [done|lia]. }
  assert (Ht : check_enum "transaction_type" TransactionType
                 (transaction_type (flat_record dr)) = []).
  { change (transaction_type (flat_record dr))
      with (Some (choice transaction_types (type_pick dr))).
    unfold check_enum. by rewrite bool_decide_true by by apply choice_type. }
  assert (Hs : check_enum "status" TransactionStatus
                 (status (flat_record dr)) = []).
  { change (status (flat_record dr))
      with (Some (choice statuses (status_pick dr))).
    unfold check_enum. by rewrite bool_decide_true by by apply choice_status. }
  assert (Hd : check_date (date (flat_record dr)) = []).
  { change (date (flat_record dr)) with (Some (date_str dr)).
    unfold check_date, date_str.
    destruct (transaction_date dr) as [[y m] d]. destruct Hdate as [Hok _].
    by rewrite validate_strftime. }
  unfold TransactionFlat_errors, TransactionBase_errors.
  rewrite Ha, Ht, Hs, Hd. reflexivity.
Qed.

Lemma flat_record_clean (dr : Draws) :
  in_range dr → clean_row (flat_record dr) = flat_record dr.
Proof.
  intros Hr. rewrite clean_valid_row by by apply flat_record_valid.
  reflexivity.
Qed.

(** X20.  Every record of the generator is a valid record.  For draws that
    [random] can give, the row that [read_json_file] builds from the
    record written to the JSON file is the row written to the CSV file;
    the validator accepts it, and cleaning leaves it as it is. *)
Theorem generated_record_is_valid (dr : Draws) :
  in_range dr →
  flatten_item (transaction dr) = Ok (flat_record dr)
  ∧ TransactionFlat (flat_record dr) = Ok (flat_record dr)
  ∧ clean_row (flat_record dr) = flat_record dr.
Proof.
  intros Hr. split; [reflexivity|]. split.
  - unfold TransactionFlat. by rewrite flat_record_valid.
  - by apply flat_record_clean.
Qed.

Lemma flatten_transactions (drs : list Draws) :
  flatten (transaction <$> drs) = Ok (flat_record <$> drs).
Proof.
  induction drs as [|dr drs IH]; [done|].
  rewrite fmap_cons. simpl flatten.
  change (flatten_item (transaction dr)) with (Ok (flat_record dr)).
  by rewrite IH.
Qed.

Lemma validate_generated (drs : list Draws) :
  Forall in_range drs →
  validate_data (flat_record <$> drs) = flat_record <$> drs.
Proof.
  induction 1 as [|dr drs Hr _ IH]; [done|].
  rewrite fmap_cons. simpl. unfold TransactionFlat.
  rewrite flat_record_valid by done. by rewrite IH.
Qed.

(** X21.  A generated JSON file goes through the processor whole.  When a
    file with the extension .json holds the records of draws that [random]
    can give, [process_file] returns the rows of the records, as they were
    generated, one for each uuid; no record is dropped as invalid. *)
Theorem generated_file_is_processed fs (U : Unique) (file_path : string)
    (drs : list Draws) :
  json_content fs file_path = Some (transaction <$> drs) →
  Py.lower (splitext_ext file_path) = ".json" →
  Forall in_range drs →
  process_file fs U file_path
  = (if is_empty drs then [] else U (flat_record <$> drs))
  ∧ invalid_count (read_json_file fs file_path) = 0%nat
  ∧ (∀ dr, dr ∈ drs →
           Some (uuid4 dr) ∈ transaction_id <$> process_file fs U file_path).
Proof.
  intros Hjson Hext Hall.
  assert (Hread : read_json_file fs file_path = flat_record <$> drs).
  { unfold read_json_file. by rewrite Hjson, flatten_transactions. }
  assert (Hfile : process_file fs U file_path
                  = if is_empty drs then [] else U (flat_record <$> drs)).
  { unfold process_file. rewrite Hext. simpl String.eqb. cbv iota.
    rewrite Hread. destruct drs as [|dr drs]; [done|].
    rewrite fmap_cons. simpl is_empty. cbv iota.
    rewrite <- fmap_cons, validate_generated by done.
    unfold clean_data. rewrite fmap_cons. simpl is_empty. cbv iota.
    f_equal. rewrite <- fmap_cons, <- list_fmap_compose.
    apply list_fmap_ext. intros i dr' Hdr'. simpl.
    apply flat_record_clean.
    rewrite Forall_forall in Hall. apply Hall.
    by eapply list_elem_of_lookup_2. }
  split; [done|]. split.
  - unfold invalid_count. rewrite Hread, validate_generated by done. lia.
  - intros dr Hdr. rewrite Hfile.
    destruct drs as [|dr0 drs]; [by apply elem_of_nil in Hdr|].
    simpl is_empty. cbv iota.
    change (Some (uuid4 dr)) with (transaction_id (flat_record dr)).
    apply unique_ids. apply list_elem_of_fmap. eauto.
Qed.
End generator.

Section generator_witnesses.
Import Generator.

Lemma sample_draws_in_range :
  in_range {| uuid4 := "6f1c2a34-0b1d-4c8e-9a57-2f3e4d5c6b7a";
              amount_drawn := 250.75%Q; type_pick := 2%nat;
              status_pick := 0%nat; transaction_date := (2024, 2, 29);
              customer_no := 4711; name_no := 17; email_no := 42;
              ip_no := 200; device_pick := 1%nat; location_pick := 4%nat |}.
Proof.
  unfold in_range; simpl.
  repeat split; try lia; unfold Qle; simpl; lia.
Defined.

Lemma generated_record_is_valid_witness :
  let dr :=
    {| uuid4 := "6f1c2a34-0b1d-4c8e-9a57-2f3e4d5c6b7a";
       amount_drawn := 250.75%Q; type_pick := 2%nat;
       status_pick := 0%nat; transaction_date := (2024, 2, 29);
       customer_no := 4711; name_no := 17; email_no := 42;
       ip_no := 200; device_pick := 1%nat; location_pick := 4%nat |} in
  in_range dr
  ∧ flatten_item (transaction dr) = Ok (flat_record dr)
  ∧ TransactionFlat (flat_record dr) = Ok (flat_record dr)
  ∧ clean_row (flat_record dr) = flat_record dr.
Proof.
  intros dr. split; [exact sample_draws_in_range|].
  exact (generated_record_is_valid dr sample_draws_in_range).
Defined.

Lemma generated_file_is_processed_witness :
  let dr :=
    {| uuid4 := "6f1c2a34-0b1d-4c8e-9a57-2f3e4d5c6b7a";
       amount_drawn := 250.75%Q; type_pick := 2%nat;
       status_pick := 0%nat; transaction_date := (2024, 2, 29);
       customer_no := 4711; name_no := 17; email_no := 42;
       ip_no := 200; device_pick := 1%nat; location_pick := 4%nat |} in
  let file_path := "data/processed/transactions_20240301_101500.json" in
  let fs := {| csv_content := λ _, None;
               json_content := λ _, Some (transaction <$> [dr; dr]) |} in
  (json_content fs file_path = Some (transaction <$> [dr; dr])
   ∧ Py.lower (splitext_ext file_path) = ".json"
   ∧ Forall in_range [dr; dr])
  ∧ process_file fs keep_first_Unique file_path
    = keep_first_Unique (flat_record <$> [dr; dr])
  ∧ invalid_count (read_json_file fs file_path) = 0%nat.
Proof.
  intros dr file_path fs.
  assert (Hjson : json_content fs file_path = Some (transaction <$> [dr; dr]))
    by reflexivity.
  assert (Hext : Py.lower (splitext_ext file_path) = ".json") by reflexivity.
  assert (Hall : Forall in_range [dr; dr]).
  { apply Forall_cons_2; [exact sample_draws_in_range|].
    apply Forall_cons_2; [exact sample_draws_in_range|apply Forall_nil_2]. }
  split; [done|].
  destruct (generated_file_is_processed fs keep_first_Unique file_path
              [dr; dr] Hjson Hext Hall) as (Hfile & Hcount & _).
  split; [exact Hfile|exact Hcount].
Defined.
End generator_witnesses.

(** ** When a file yields rows *)

(** X22.  A file yields rows exactly when the frame read for its extension
    holds a valid row.  [process_file] returns a non-empty frame if and
    only if the extension of the path is .csv (in any case) and the CSV
    frame has a row that [TransactionFlat] accepts, or it is .json and the
    JSON frame has one; with any other extension the result is empty
    whatever the file holds. *)
Theorem process_file_yields_iff fs (U : Unique) (file_path : string) :
  process_file fs U file_path ≠ []
  ↔ (Py.lower (splitext_ext file_path) = ".csv"
     ∧ ∃ raw, raw ∈ read_csv_file fs file_path
              ∧ TransactionFlat raw = Ok raw)
    ∨ (Py.lower (splitext_ext file_path) = ".json"
       ∧ ∃ raw, raw ∈ read_json_file fs file_path
                ∧ TransactionFlat raw = Ok raw).
Proof.
  assert (Hgen : ∀ frame : list Row,
            (if is_empty frame then frame
             else clean_data U (validate_data frame)) ≠ []
            ↔ ∃ raw, raw ∈ frame ∧ TransactionFlat raw = Ok raw).
  { intros frame. split.
    - destruct frame as [|x frame]; [done|]. simpl is_empty. cbv iota.
      unfold clean_data.
      destruct (validate_data (x :: frame)) as [|v vs] eqn:E; [done|].
      intros _. exists v.
      assert (Hv : v ∈ validate_data (x :: frame)) by (rewrite E; left).
      apply validate_data_spec in Hv as [? Hok].
      split; [done|]. unfold TransactionFlat. by rewrite Hok.
    - intros (raw & Hraw & Hok).
      destruct frame as [|x frame]; [by apply elem_of_nil in Hraw|].
      simpl is_empty. cbv iota. unfold clean_data.
      assert (Hv : raw ∈ validate_data (x :: frame)).
      { apply validate_data_spec. split; [done|].
        unfold TransactionFlat in Hok.
        by destruct (TransactionFlat_errors raw). }
      destruct (validate_data (x :: frame)) as [|v vs] eqn:E;
        [by apply elem_of_nil in Hv|].
      simpl is_empty. cbv iota. intros Hnil.
      pose proof (unique_is_empty U (clean_row <$> v :: vs)) as Hemp.
      rewrite Hnil in Hemp. done. }
  unfold process_file.
  destruct (String.eqb_spec (Py.lower (splitext_ext file_path)) ".csv")
    as [Hcsv|Hcsv].
  { rewrite Hgen. rewrite Hcsv. split; [intros ?; by left|].
    by intros [[_ ?]|[? _]]. }
  destruct (String.eqb_spec (Py.lower (splitext_ext file_path)) ".json")
    as [Hjson|Hjson].
  { rewrite Hgen. split; [intros ?; by right|].
    by intros [[? _]|[_ ?]]. }
  split; [done|]. by intros [[? _]|[? _]].
Qed.

(** ** Two pages *)

(** X23.  Two pages.  On a keyed table without the empty id, when more
    than L and at most 2 L rows match the date filter, the call without
    cursor returns the first L of them and a next cursor, and the call with
    that cursor returns the rest and no next cursor. *)
Theorem two_pages (tbl : list Row) sd ed (L : Z) :
  Db.primary_key tbl →
  (∀ r, r ∈ tbl → transaction_id r ≠ Some "") →
  1 <= L →
  let full := Db.matching sd ed None tbl in
  L < Py.len full <= 2 * L →
  ∃ cursor total,
    Db.get_transactions sd ed None L (Db.healthy tbl)
    = (Ok (take (Z.to_nat L) full, Some cursor, None, total), Db.healthy tbl)
    ∧ Db.get_transactions sd ed (Some cursor) L (Db.healthy tbl)
      = (Ok (drop (Z.to_nat L) full, None, Some cursor, total),
         Db.healthy tbl)
    ∧ total = length full.
Proof.
  intros Hpk Hne HL full Hlen. unfold Py.len in Hlen.
  set (total := length (filter (λ r, Db.where_clause sd ed r = true) tbl)).
  assert (Htotal : total = length full).
  { subst total full. by rewrite (full_perm tbl sd ed). }
  (* the first page *)
  destruct (page_ok (take (Z.to_nat (L + 1)) full) None L total HL)
    as (next & Hpage1 & _ & Hlong).
  destruct Hlong as (row & Hrow & ->).
  { unfold Py.len. rewrite length_take. lia. }
  rewrite lookup_take_lt in Hrow by lia.
  assert (Hin : row ∈ full) by by eapply list_elem_of_lookup_2.
  destruct (primary_key_id full row) as [i Hi];
    [by apply full_key|done|].
  assert (Hi_ne : i ≠ "").
  { intros ->. apply (Hne row); [|done]. by eapply full_in_table. }
  exists i, total. split; [|split; [|done]].
  - rewrite get_transactions_healthy by lia. fold full total.
    rewrite Hpage1, take_take, Hi.
    by replace (Z.to_nat L `min` Z.to_nat (L + 1))%nat with (Z.to_nat L)
      by lia.
  - assert (Htake : take (Z.to_nat L) full
                    = take (Z.to_nat (L - 1)) full ++ [row]).
    { replace (Z.to_nat L) with (S (Z.to_nat (L - 1))) by lia.
      by apply take_S_r. }
    assert (Hrest : Db.matching sd ed (Some i) tbl = drop (Z.to_nat L) full).
    { apply (matching_after tbl sd ed Hpk Hne (take (Z.to_nat L) full)).
      - by rewrite take_drop.
      - right. exists (take (Z.to_nat (L - 1)) full), row, i. done. }
    rewrite get_transactions_healthy by lia. fold total. rewrite Hrest.
    destruct (page_ok (take (Z.to_nat (L + 1)) (drop (Z.to_nat L) full))
                (Some i) L total HL) as (next & Hpage2 & Hshort & _).
    rewrite Hpage2, Hshort.
    2:{ unfold Py.len. rewrite length_take, length_drop. lia. }
    assert (Py.truthy (Some i) = true) as ->.
    { simpl. by apply negb_true_iff, String.eqb_neq. }
    rewrite take_take.
    rewrite take_ge by (rewrite length_drop; lia). done.
Qed.

Lemma two_pages_witness :
  let r (i : string) :=
    mkRow (Some i) None None None None None None None None None None None in
  let tbl := [r "c"; r "a"; r "b"] in
  (Db.primary_key tbl
   ∧ (∀ x, x ∈ tbl → transaction_id x ≠ Some "")
   ∧ 1 <= 2
   ∧ 2 < Py.len (Db.matching None None None tbl) <= 2 * 2)
  ∧ ∃ cursor total,
      Db.get_transactions None None None 2 (Db.healthy tbl)
      = (Ok (take (Z.to_nat 2) (Db.matching None None None tbl), Some cursor,
             None, total), Db.healthy tbl)
      ∧ Db.get_transactions None None (Some cursor) 2 (Db.healthy tbl)
        = (Ok (drop (Z.to_nat 2) (Db.matching None None None tbl), None,
               Some cursor, total), Db.healthy tbl)
      ∧ total = length (Db.matching None None None tbl).
Proof.
  intros r tbl.
  assert (Hpk : Db.primary_key tbl).
  { apply (bool_decide_unpack _). vm_compute. exact I. }
  assert (Hne : ∀ x, x ∈ tbl → transaction_id x ≠ Some "").
  { apply Forall_forall. apply (bool_decide_unpack _). vm_compute. exact I. }
  assert (HL : 1 <= 2) by lia.
  assert (Hlen : 2 < Py.len (Db.matching None None None tbl) <= 2 * 2).
  { vm_compute. split; [reflexivity|discriminate]. }
  split; [done|].
  exact (two_pages tbl None None 2 Hpk Hne HL Hlen).
Defined.
